(** * The streaming conversation engine of the document chat front end

  A shallow embedding of the React components
    - [components/chat/chat-interface.tsx]        (module [ChatInterface]),
    - [components/chat/conversation-sidebar.tsx]  (module [ConversationSidebar]),
    - [components/chat/chat-input.tsx]            (module [ChatInput]),
  over the data model of [types/chat.ts] (module [Chat]).

  Conventions of the embedding.
    - A JavaScript string is a [string]; every character stands for one
      UTF-16 code unit (only code units below 256 are representable).
    - A [Date] is its time value, the number of milliseconds since the
      epoch, a [Z].  [Date.now()] and [new Date()] are the argument [now]
      of the handler that evaluates them.
    - A component's [useState] cells are the fields of a record.  A handler
      is a function of the render snapshot its closure captured ([snap],
      read by plain variable references) and of the current store ([st],
      read and written by the setters and their functional updaters).
    - An [async] handler is a resumption ([Task]): it runs to its next
      [await] of a network call, and continues from the settled promise,
      the clock and the store as they are at that later moment. *)

From Stdlib Require Import ZArith List String Ascii Bool Lia.
From Stdlib Require Import Permutation Sorted DecimalString.
From Stdlib Require QArith.
Import ListNotations.

Open Scope string_scope.
Open Scope list_scope.

(** ** JavaScript built-ins used by the components *)

Module Js.

(** WhiteSpace and LineTerminator code units below 256 (what
    [String.prototype.trim] strips): TAB, LF, VT, FF, CR, SP, NBSP. *)
Definition isWhiteSpace (c : ascii) : bool :=
  let n := nat_of_ascii c in
  ((9 <=? n) && (n <=? 13) || (n =? 32) || (n =? 160))%nat.

Fixpoint trimStart (s : string) : string :=
  match s with
  | EmptyString => EmptyString
  | String c s' => if isWhiteSpace c then trimStart s' else s
  end.

Fixpoint trimEnd (s : string) : string :=
  match s with
  | EmptyString => EmptyString
  | String c s' =>
      match trimEnd s' with
      | EmptyString => if isWhiteSpace c then EmptyString else String c EmptyString
      | t => String c t
      end
  end.

Definition trim (s : string) : string := trimEnd (trimStart s).

(** Truthiness of a string: the empty string is the only falsy one. *)
Definition truthy (s : string) : bool :=
  match s with EmptyString => false | String _ _ => true end.

(** Truthiness of an optional string ([undefined] is falsy). *)
Definition truthy_opt (o : option string) : bool :=
  match o with Some s => truthy s | None => false end.

Definition lowerChar (c : ascii) : ascii :=
  let n := nat_of_ascii c in
  if ((65 <=? n) && (n <=? 90)
      || (192 <=? n) && (n <=? 222) && negb (n =? 215))%nat
  then ascii_of_nat (n + 32) else c.

Fixpoint toLowerCase (s : string) : string :=
  match s with
  | EmptyString => EmptyString
  | String c s' => String (lowerChar c) (toLowerCase s')
  end.

(** [s.includes(q)]: [q] occurs in [s] as a contiguous substring. *)
Fixpoint includes (s q : string) : bool :=
  prefix q s ||
  match s with
  | EmptyString => false
  | String _ s' => includes s' q
  end.

(** [s.substring(a, b)] for non-negative integer arguments. *)
Definition substring (a b : nat) (s : string) : string :=
  String.substring (Nat.min a b) (Nat.max a b - Nat.min a b) s.

(** [s.split(' ')]: the pieces between the occurrences of the separator
    character; never an empty array. *)
Fixpoint split (sep : ascii) (s : string) : list string :=
  match s with
  | EmptyString => [EmptyString]
  | String c s' =>
      if Ascii.eqb c sep then EmptyString :: split sep s'
      else match split sep s' with
           | [] => [String c EmptyString]
           | w :: ws => String c w :: ws
           end
  end.

(** [words.join(sep)]. *)
Fixpoint join (sep : string) (words : list string) : string :=
  match words with
  | [] => EmptyString
  | [w] => w
  | w :: ws => w ++ sep ++ join sep ws
  end.

(** [words[words.length - 1] = v] on a non-empty array. *)
Fixpoint setLast (words : list string) (v : string) : list string :=
  match words with
  | [] => []
  | [_] => [v]
  | w :: ws => w :: setLast ws v
  end.

(** [n.toString()] of an integer-valued number. *)
Definition toString (n : Z) : string :=
  NilZero.string_of_int (Z.to_int n).

(** What an [Error] carries, as far as the components look at it: its
    [message] and whether it is an [instanceof ApiError]. *)
Record Error := { isApiError : bool; message : string }.

Definition newError (m : string) : Error :=
  {| isApiError := false; message := m |}.

(** A settled promise. *)
Inductive Settled (A : Type) : Type :=
| fulfilled (a : A)
| rejected (e : Error).
Arguments fulfilled {A} a.
Arguments rejected {A} e.

(** Completion of a synchronous call: it returns or it throws. *)
Inductive Completion (A : Type) : Type :=
| Normal (a : A)
| Throw (e : Error).
Arguments Normal {A} a.
Arguments Throw {A} e.

End Js.

(** ** The data model of [types/chat.ts] *)

Module Chat.

Inductive Role := user | assistant.

Definition Role_eqb (a b : Role) : bool :=
  match a, b with
  | user, user | assistant, assistant => true
  | _, _ => false
  end.

Record DocumentSource := {
  filename : string;
  chunk_text : string;
  relevance_score : QArith_base.Q;
  document_id : option string
}.

Record Message := {
  id : string;
  content : string;
  role : Role;
  timestamp : Z;
  sources : option (list DocumentSource);
  conversationId : option string
}.

Record Conversation := {
  conv_id : string;
  title : string;
  lastMessage : option string;
  updatedAt : Z;
  createdAt : Z;
  messageCount : Z;
  userId : option string;
  conv_messages : option (list Message)
}.

Record ChatRequest := {
  req_message : string;
  req_conversation_id : string
}.

Record ChatResponse := {
  response : string;
  resp_sources : list DocumentSource;
  resp_conversation_id : string
}.

(** [StreamingChatResponse]: the [type] tag and the three optional
    fields, each of which any event may or may not carry. *)
Inductive StreamType := type_message | type_source | type_done | type_error.

Record StreamingChatResponse := {
  type : StreamType;
  ev_content : option string;
  ev_source : option DocumentSource;
  ev_error : option string
}.

Record DateRange := { range_start : Z; range_end : Z }.

Record SearchFilters := {
  query : option string;
  dateRange : option DateRange;
  sourceDocuments : option (list string)
}.

End Chat.

(** ** [ChatInterface]: the send orchestrator and the stream handlers *)

Module ChatInterface.
Import Js Chat.

(** [process.env]: the one variable the component reads. *)
Record Env := { NEXT_PUBLIC_ENABLE_STREAMING : option string }.

Definition streamingEnabled (env : Env) : bool :=
  match NEXT_PUBLIC_ENABLE_STREAMING env with
  | Some v => String.eqb v "true"
  | None => false
  end.

Record AbortController := { aborted : bool }.

(** The [useState] cells of the component and its [abortControllerRef]
    ([messagesEndRef] only scrolls the view). *)
Record State := {
  messages : list Message;
  isLoading : bool;
  isStreaming : bool;
  conversationId : option string;
  currentConversation : option Conversation;
  error : option string;
  streamingMessage : string;
  abortControllerRef : option AbortController
}.

(** [useState(...)] and [useRef(null)] at mount. *)
Definition initialState (initialConversationId : option string) : State :=
  {| messages := []; isLoading := false; isStreaming := false;
     conversationId := initialConversationId; currentConversation := None;
     error := None; streamingMessage := ""; abortControllerRef := None |}.

(** The setters, in their functional-updater form; [value v] is the
    plain form [setX(v)]. *)
Definition value {A : Type} (v : A) : A -> A := fun _ => v.

Definition setMessages (f : list Message -> list Message) (st : State) : State :=
  {| messages := f (messages st); isLoading := isLoading st;
     isStreaming := isStreaming st; conversationId := conversationId st;
     currentConversation := currentConversation st; error := error st;
     streamingMessage := streamingMessage st;
     abortControllerRef := abortControllerRef st |}.

Definition setIsLoading (f : bool -> bool) (st : State) : State :=
  {| messages := messages st; isLoading := f (isLoading st);
     isStreaming := isStreaming st; conversationId := conversationId st;
     currentConversation := currentConversation st; error := error st;
     streamingMessage := streamingMessage st;
     abortControllerRef := abortControllerRef st |}.

Definition setIsStreaming (f : bool -> bool) (st : State) : State :=
  {| messages := messages st; isLoading := isLoading st;
     isStreaming := f (isStreaming st); conversationId := conversationId st;
     currentConversation := currentConversation st; error := error st;
     streamingMessage := streamingMessage st;
     abortControllerRef := abortControllerRef st |}.

Definition setConversationId (f : option string -> option string) (st : State) : State :=
  {| messages := messages st; isLoading := isLoading st;
     isStreaming := isStreaming st; conversationId := f (conversationId st);
     currentConversation := currentConversation st; error := error st;
     streamingMessage := streamingMessage st;
     abortControllerRef := abortControllerRef st |}.

Definition setCurrentConversation (f : option Conversation -> option Conversation)
    (st : State) : State :=
  {| messages := messages st; isLoading := isLoading st;
     isStreaming := isStreaming st; conversationId := conversationId st;
     currentConversation := f (currentConversation st); error := error st;
     streamingMessage := streamingMessage st;
     abortControllerRef := abortControllerRef st |}.

Definition setError (f : option string -> option string) (st : State) : State :=
  {| messages := messages st; isLoading := isLoading st;
     isStreaming := isStreaming st; conversationId := conversationId st;
     currentConversation := currentConversation st; error := f (error st);
     streamingMessage := streamingMessage st;
     abortControllerRef := abortControllerRef st |}.

Definition setStreamingMessage (f : string -> string) (st : State) : State :=
  {| messages := messages st; isLoading := isLoading st;
     isStreaming := isStreaming st; conversationId := conversationId st;
     currentConversation := currentConversation st; error := error st;
     streamingMessage := f (streamingMessage st);
     abortControllerRef := abortControllerRef st |}.

(** [if (abortControllerRef.current) abortControllerRef.current.abort()].
    Nothing in the component ever assigns [abortControllerRef.current],
    and no signal is handed to the network calls or read by the stream
    handlers: aborting only marks the controller. *)
Definition abortOngoing (st : State) : State :=
  match abortControllerRef st with
  | Some _ =>
      {| messages := messages st; isLoading := isLoading st;
         isStreaming := isStreaming st; conversationId := conversationId st;
         currentConversation := currentConversation st; error := error st;
         streamingMessage := streamingMessage st;
         abortControllerRef := Some {| aborted := true |} |}
  | None => st
  end.

(** What the two stream callbacks capture when [handleStreamingResponse]
    creates them: the [streamingMessage] of the render whose
    [handleSendMessage] is running (a [const], never re-read from the
    store) and the parameter [convId].  The third captured variable, the
    array [streamingSources], is mutable and is threaded explicitly.  The
    message that [done] builds holds this very array; the model gives it
    the array's content at that moment, which is what the message shows
    as long as no [source] event follows [done], the terminal event. *)
Record StreamClosure := {
  captured_streamingMessage : string;
  convId : string
}.

(** An [async] handler, run up to its next [await]. *)
Inductive Task :=
| Returned (st : State)
| Rejects (st : State) (e : Error)
| AwaitCreateConversation (st : State) (title : string)
    (k : Settled string -> Z -> State -> Task)
| AwaitSendMessage (st : State) (request : ChatRequest)
    (k : Settled ChatResponse -> Z -> State -> Task)
| AwaitStreamingChat (st : State) (request : ChatRequest)
    (closure : StreamClosure) (streamingSources : list DocumentSource)
    (k : Settled unit -> Z -> State -> Task).

(** The store as the task leaves it when it suspends or ends. *)
Definition task_state (t : Task) : State :=
  match t with
  | Returned st | Rejects st _ => st
  | AwaitCreateConversation st _ _ => st
  | AwaitSendMessage st _ _ => st
  | AwaitStreamingChat st _ _ _ _ => st
  end.

(** [loadConversation], from the moment [getConversation(id)] settles. *)
Definition loadConversation (r : Settled Conversation) (st : State) : State :=
  match r with
  | fulfilled conversation =>
      let st := setCurrentConversation (value (Some conversation)) st in
      match conv_messages conversation with
      | Some ms => setMessages (value ms) st
      | None => setMessages (value []) st
      end
  | rejected e =>
      let st :=
        setError (value (Some (if isApiError e then message e
                               else "Failed to load conversation"))) st in
      setMessages (value []) st
  end.

(** [handleStreamMessage], the [onMessage] callback of one stream. *)
Definition handleStreamMessage (cl : StreamClosure)
    (response : StreamingChatResponse) (now : Z)
    (streamingSources : list DocumentSource) (st : State)
  : Completion (list DocumentSource * State) :=
  match type response with
  | type_message =>
      match ev_content response with
      | Some c =>
          if truthy c
          then Normal (streamingSources,
                       setStreamingMessage (fun prev => (prev ++ c)%string) st)
          else Normal (streamingSources, st)
      | None => Normal (streamingSources, st)
      end
  | type_source =>
      match ev_source response with
      | Some s => Normal (streamingSources ++ [s], st)
      | None => Normal (streamingSources, st)
      end
  | type_done =>
      let assistantMessage :=
        {| id := toString now;
           content := captured_streamingMessage cl;
           role := assistant;
           timestamp := now;
           sources := Some streamingSources;
           Chat.conversationId := Some (convId cl) |} in
      let st := setMessages (fun prev => prev ++ [assistantMessage]) st in
      let st := setStreamingMessage (value "") st in
      let st := setIsStreaming (value false) st in
      Normal (streamingSources, st)
  | type_error =>
      Throw (newError (match ev_error response with
                       | Some e => if truthy e then e
                                   else "Streaming error occurred"
                       | None => "Streaming error occurred"
                       end))
  end.

(** [handleStreamError], the [onError] callback of one stream. *)
Definition handleStreamError (e : Error) (st : State) : State :=
  let st := setError (value (Some (message e))) st in
  let st := setIsStreaming (value false) st in
  setStreamingMessage (value "") st.

(** The [finally] clause of [handleSendMessage]. *)
Definition finally_clause (st : State) : State :=
  setIsLoading (value false) st.

(** The [catch] clause of [handleSendMessage].  After [setError], the
    initialiser of [errorResponse] evaluates [id], [content], [role],
    [timestamp] and then [conversationId: currentConvId].  The variable
    [currentConvId] is declared by [let] inside the block of [try];
    the [catch] clause is outside that block, and no enclosing scope
    declares the name, so the reference is unresolvable and throws a
    ReferenceError before [setMessages] is reached. *)
Definition catch_clause (e : Error) (now : Z) (st : State) : State * Error :=
  let errorMessage :=
    if isApiError e then message e else "Failed to send message" in
  let st := setError (value (Some errorMessage)) st in
  (st, newError "currentConvId is not defined").

(** The [try] block completed. *)
Definition try_done (st : State) : Task := Returned (finally_clause st).

(** The [try] block threw [e]. *)
Definition try_threw (e : Error) (now : Z) (st : State) : Task :=
  let (st, e') := catch_clause e now st in
  Rejects (finally_clause st) e'.

Definition handleStreamingResponse (snap : State) (message convId : string)
    (st : State) : Task :=
  let st := setIsStreaming (value true) st in
  let st := setStreamingMessage (value "") st in
  AwaitStreamingChat st
    {| req_message := message; req_conversation_id := convId |}
    {| captured_streamingMessage := streamingMessage snap; convId := convId |}
    []
    (fun r now st =>
       match r with
       | fulfilled _ => try_done st
       | rejected e => try_threw e now st
       end).

Definition handleRegularResponse (message convId : string) (st : State) : Task :=
  AwaitSendMessage st
    {| req_message := message; req_conversation_id := convId |}
    (fun r now st =>
       match r with
       | fulfilled resp =>
           let assistantMessage :=
             {| id := toString now;
                content := response resp;
                role := assistant;
                timestamp := now;
                sources := Some (resp_sources resp);
                Chat.conversationId := Some convId |} in
           try_done (setMessages (fun prev => prev ++ [assistantMessage]) st)
       | rejected e => try_threw e now st
       end).

(** The title handed to [createConversation]. *)
Definition conversationTitle (content : string) : string :=
  if (50 <? String.length content)%nat
  then (Js.substring 0 47 content ++ "...")%string
  else content.

Definition handleSendMessage (env : Env) (snap : State) (content : string)
    (now : Z) (st : State) : Task :=
  if negb (truthy (trim content)) || isLoading snap || isStreaming snap
  then Returned st
  else
    let st := abortOngoing st in
    let st := setError (value None) st in
    let st := setIsLoading (value true) st in
    let userMessage :=
      {| id := toString now;
         content := trim content;
         role := user;
         timestamp := now;
         sources := None;
         Chat.conversationId := conversationId snap |} in
    let st := setMessages (fun prev => prev ++ [userMessage]) st in
    let respond (currentConvId : string) (st : State) : Task :=
      if streamingEnabled env
      then handleStreamingResponse snap content currentConvId st
      else handleRegularResponse content currentConvId st in
    let create : Task :=
      AwaitCreateConversation st (conversationTitle content)
        (fun r now st =>
           match r with
           | fulfilled conversation_id =>
               respond conversation_id
                 (setConversationId (value (Some conversation_id)) st)
           | rejected e => try_threw e now st
           end) in
    match conversationId snap with
    | Some currentConvId =>
        if truthy currentConvId then respond currentConvId st else create
    | None => create
    end.

(** [onConversationChange] is a callback of the embedding page and
    touches nothing of the component. *)
Definition handleNewConversation (st : State) : State :=
  let st := abortOngoing st in
  let st := setConversationId (value None) st in
  let st := setCurrentConversation (value None) st in
  let st := setMessages (value []) st in
  let st := setError (value None) st in
  let st := setIsLoading (value false) st in
  let st := setIsStreaming (value false) st in
  setStreamingMessage (value "") st.

Definition handleSelectConversation (snap : State) (id : string) (st : State) : State :=
  match conversationId snap with
  | Some c => if String.eqb id c then st else setConversationId (value (Some id)) st
  | None => setConversationId (value (Some id)) st
  end.

(** [xs[xs.length - 1]], also what [xs.pop()] returns. *)
Definition lastOf {A : Type} (xs : list A) : option A :=
  match rev xs with
  | [] => None
  | x :: _ => Some x
  end.

(** The error-like test of [handleRetry]. *)
Definition errorLike (m : Message) : bool :=
  Role_eqb (role m) assistant && includes (content m) "error".

(** The updater [handleRetry] passes to [setMessages]. *)
Definition dropTrailingError (prev : list Message) : list Message :=
  match lastOf prev with
  | Some lastMessage => if errorLike lastMessage then removelast prev else prev
  | None => prev
  end.

Definition handleRetry (env : Env) (snap : State) (now : Z) (st : State) : Task :=
  if (0 <? List.length (messages snap))%nat then
    match lastOf (filter (fun m => Role_eqb (role m) user) (messages snap)) with
    | Some lastUserMessage =>
        let st := setMessages dropTrailingError st in
        handleSendMessage env snap (content lastUserMessage) now st
    | None => Returned st
    end
  else Returned st.

(** Modelled from the spec: [createStreamingChat] of [lib/api], which is
    not among the sources.  It hands every event it reads to the message
    callback, one at a time and in arrival order (sections 5 and 6).
    Where an exception thrown by the callback goes is the transport's
    business: the run stops there and reports it. *)
Fixpoint deliver (cl : StreamClosure) (events : list (Z * StreamingChatResponse))
    (streamingSources : list DocumentSource) (st : State)
  : Completion (list DocumentSource * State) :=
  match events with
  | [] => Normal (streamingSources, st)
  | (now, response) :: rest =>
      match handleStreamMessage cl response now streamingSources st with
      | Normal (streamingSources', st') => deliver cl rest streamingSources' st'
      | Throw e => Throw e
      end
  end.

(** *** Looking at a task, and resuming it

    Whether the task is suspended at a network call, and at which. *)
Definition awaitsNetwork (t : Task) : bool :=
  match t with
  | Returned _ | Rejects _ _ => false
  | _ => true
  end.

Definition awaitedTitle (t : Task) : option string :=
  match t with
  | AwaitCreateConversation _ title _ => Some title
  | _ => None
  end.

Definition awaitedStream (t : Task)
  : option (ChatRequest * StreamClosure * list DocumentSource) :=
  match t with
  | AwaitStreamingChat _ request cl streamingSources _ =>
      Some (request, cl, streamingSources)
  | _ => None
  end.

(** The awaited promise settles with [r] at time [now], the store being
    [st] by then. *)
Definition conversationCreated (t : Task) (r : Settled string) (now : Z)
    (st : State) : Task :=
  match t with
  | AwaitCreateConversation _ _ k => k r now st
  | _ => t
  end.

Definition messageSent (t : Task) (r : Settled ChatResponse) (now : Z)
    (st : State) : Task :=
  match t with
  | AwaitSendMessage _ _ k => k r now st
  | _ => t
  end.

Definition streamSettled (t : Task) (r : Settled unit) (now : Z)
    (st : State) : Task :=
  match t with
  | AwaitStreamingChat _ _ _ _ k => k r now st
  | _ => t
  end.

(** *** The wording of the specification, for comparison

    The text a stream carried: the [content] fragments of its [message]
    events, concatenated in arrival order. *)
Fixpoint streamedText (events : list (Z * StreamingChatResponse)) : string :=
  match events with
  | [] => ""
  | (_, response) :: rest =>
      match type response, ev_content response with
      | type_message, Some c => (c ++ streamedText rest)%string
      | _, _ => streamedText rest
      end
  end.

(** The citations a stream carried: those of its [source] events, in
    arrival order. *)
Fixpoint streamedCitations (events : list (Z * StreamingChatResponse))
  : list DocumentSource :=
  match events with
  | [] => []
  | (_, response) :: rest =>
      match type response, ev_source response with
      | type_source, Some s => s :: streamedCitations rest
      | _, _ => streamedCitations rest
      end
  end.

(** No terminal event ([done], [error]) among [events]. *)
Definition inFlight (events : list (Z * StreamingChatResponse)) : bool :=
  forallb (fun ev => match type (snd ev) with
                     | type_message | type_source => true
                     | type_done | type_error => false
                     end) events.

End ChatInterface.

(** ** [ConversationSidebar]: the conversation directory *)

Module ConversationSidebar.
Import Js Chat.

Record Props := {
  currentConversationId : option string;
  userId : option string
}.

Record State := {
  conversations : list Conversation;
  filteredConversations : list Conversation;
  isCollapsed : bool;
  isLoading : bool;
  error : option string;
  searchQuery : string;
  showSearch : bool;
  showFilters : bool;
  filters : SearchFilters;
  hasMore : bool;
  page : Z;
  total : Z
}.

Definition setConversations (f : list Conversation -> list Conversation)
    (st : State) : State :=
  {| conversations := f (conversations st);
     filteredConversations := filteredConversations st;
     isCollapsed := isCollapsed st; isLoading := isLoading st;
     error := error st; searchQuery := searchQuery st;
     showSearch := showSearch st; showFilters := showFilters st;
     filters := filters st; hasMore := hasMore st; page := page st;
     total := total st |}.

Definition setFilteredConversations (v : list Conversation) (st : State) : State :=
  {| conversations := conversations st;
     filteredConversations := v;
     isCollapsed := isCollapsed st; isLoading := isLoading st;
     error := error st; searchQuery := searchQuery st;
     showSearch := showSearch st; showFilters := showFilters st;
     filters := filters st; hasMore := hasMore st; page := page st;
     total := total st |}.

Definition setError (v : option string) (st : State) : State :=
  {| conversations := conversations st;
     filteredConversations := filteredConversations st;
     isCollapsed := isCollapsed st; isLoading := isLoading st;
     error := v; searchQuery := searchQuery st;
     showSearch := showSearch st; showFilters := showFilters st;
     filters := filters st; hasMore := hasMore st; page := page st;
     total := total st |}.

(** [xs.sort(compare)]: the sort is stable, and [compare a b <= 0] keeps
    [a] in front of [b]; written as the insertion of each element, from
    the last to the first, in front of the first element it must
    precede. *)
Fixpoint insertSorted {A : Type} (compare : A -> A -> Z) (x : A) (l : list A)
  : list A :=
  match l with
  | [] => [x]
  | y :: l' =>
      if (compare x y <=? 0)%Z then x :: y :: l'
      else y :: insertSorted compare x l'
  end.

Fixpoint sort {A : Type} (compare : A -> A -> Z) (l : list A) : list A :=
  match l with
  | [] => []
  | x :: l' => insertSorted compare x (sort compare l')
  end.

(** The text test of the filter effect. *)
Definition matchesQuery (query : string) (conv : Conversation) : bool :=
  includes (toLowerCase (title conv)) query ||
  match lastMessage conv with
  | Some m => includes (toLowerCase m) query
  | None => false
  end.

(** The date test of the filter effect. *)
Definition inDateRange (r : DateRange) (conv : Conversation) : bool :=
  (range_start r <=? updatedAt conv)%Z && (updatedAt conv <=? range_end r)%Z.

(** The comparator of the filter effect. *)
Definition mostRecentFirst (a b : Conversation) : Z :=
  (updatedAt b - updatedAt a)%Z.

(** The body of the filter effect: the value it hands to
    [setFilteredConversations]. *)
Definition filterConversations (conversations : list Conversation)
    (searchQuery : string) (filters : SearchFilters) : list Conversation :=
  let filtered := conversations in
  let filtered :=
    if truthy (trim searchQuery)
    then let query := toLowerCase searchQuery in
         filter (matchesQuery query) filtered
    else filtered in
  let filtered :=
    match dateRange filters with
    | Some r => filter (inDateRange r) filtered
    | None => filtered
    end in
  sort mostRecentFirst filtered.

Definition filterEffect (st : State) : State :=
  setFilteredConversations
    (filterConversations (conversations st) (searchQuery st) (filters st)) st.

(** [handleDeleteConversation], given the answer to [confirm(...)] and
    how [deleteConversation(id)] settled; [onNewConversation] is the
    parent's [handleNewConversation], acting on the parent's store. *)
Definition handleDeleteConversation (props : Props) (conversationId : string)
    (confirmed : bool) (r : Settled unit)
    (w : State * ChatInterface.State) : State * ChatInterface.State :=
  let (st, chat) := w in
  if negb confirmed then (st, chat)
  else
    match r with
    | fulfilled _ =>
        let st :=
          setConversations
            (fun prev =>
               filter (fun c => negb (String.eqb (conv_id c) conversationId)) prev)
            st in
        match currentConversationId props with
        | Some cur =>
            if String.eqb cur conversationId
            then (st, ChatInterface.handleNewConversation chat)
            else (st, chat)
        | None => (st, chat)
        end
    | rejected e =>
        (setError (Some (if isApiError e then message e
                         else "Failed to delete conversation")) st, chat)
    end.

Definition msPerDay : Z := 24 * 60 * 60 * 1000.

(** [d.toDateString()] spells the local calendar day of [d], so two such
    strings are equal exactly when the two days are; the day is kept as
    its number.  [tz] is the offset of local time from UTC, in
    milliseconds. *)
Definition toDateString (tz : Z) (d : Z) : Z := ((d + tz) / msPerDay)%Z.

(** The object [groups]: its four keys in insertion order. *)
Definition Groups : Type := list (string * list Conversation).

Definition emptyGroups : Groups :=
  [("Today", []); ("Yesterday", []); ("This Week", []); ("Older", [])].

(** [groups[key].push(conv)]. *)
Fixpoint push (key : string) (conv : Conversation) (groups : Groups) : Groups :=
  match groups with
  | [] => []
  | (k, convs) :: rest =>
      if String.eqb k key then (k, convs ++ [conv]) :: rest
      else (k, convs) :: push key conv rest
  end.

(** The key the [forEach] callback pushes [conv] under. *)
Definition groupOf (tz now : Z) (conv : Conversation) : string :=
  let yesterday := (now - 24 * 60 * 60 * 1000)%Z in
  let weekAgo := (now - 7 * 24 * 60 * 60 * 1000)%Z in
  if (toDateString tz (updatedAt conv) =? toDateString tz now)%Z then "Today"
  else if (toDateString tz (updatedAt conv) =? toDateString tz yesterday)%Z
       then "Yesterday"
  else if (weekAgo <? updatedAt conv)%Z then "This Week"
  else "Older".

Definition conversationGroups (tz now : Z)
    (filteredConversations : list Conversation) : Groups :=
  let groups :=
    fold_left (fun groups conv => push (groupOf tz now conv) conv groups)
              filteredConversations emptyGroups in
  filter (fun entry => (0 <? List.length (snd entry))%nat) groups.

(** *** The wording of the specification, for comparison *)

(** [q] occurs in [s] when case is ignored. *)
Definition containsIgnoringCase (s q : string) : Prop :=
  exists pre post, toLowerCase s = (pre ++ toLowerCase q ++ post)%string.

(** The title or the last-message preview contains the query. *)
Definition matchesText (q : string) (conv : Conversation) : Prop :=
  containsIgnoringCase (title conv) q
  \/ exists m, lastMessage conv = Some m /\ containsIgnoringCase m q.

(** The last-update time lies in the optional range, ends included. *)
Definition withinRange (r : option DateRange) (conv : Conversation) : Prop :=
  match r with
  | Some r => (range_start r <= updatedAt conv <= range_end r)%Z
  | None => True
  end.

(** Most recent first: [a] may stand in front of [b]. *)
Definition notOlder (a b : Conversation) : Prop :=
  (updatedAt b <= updatedAt a)%Z.

(** What the two [filter] passes of the effect keep, as one test. *)
Definition kept (searchQuery : string) (filters : SearchFilters)
    (conv : Conversation) : bool :=
  (if truthy (trim searchQuery)
   then matchesQuery (toLowerCase searchQuery) conv else true)
  && match dateRange filters with
     | Some r => inDateRange r conv
     | None => true
     end.

(** The four buckets, each by its own test. *)
Definition sameLocalDay (tz a b : Z) : bool :=
  (toDateString tz a =? toDateString tz b)%Z.

Definition inToday (tz now : Z) (conv : Conversation) : bool :=
  sameLocalDay tz (updatedAt conv) now.

Definition inYesterday (tz now : Z) (conv : Conversation) : bool :=
  negb (inToday tz now conv)
  && sameLocalDay tz (updatedAt conv) (now - msPerDay)%Z.

Definition inThisWeek (tz now : Z) (conv : Conversation) : bool :=
  negb (inToday tz now conv)
  && negb (sameLocalDay tz (updatedAt conv) (now - msPerDay)%Z)
  && (now - 7 * msPerDay <? updatedAt conv)%Z.

Definition inOlder (tz now : Z) (conv : Conversation) : bool :=
  negb (inToday tz now conv)
  && negb (sameLocalDay tz (updatedAt conv) (now - msPerDay)%Z)
  && (updatedAt conv <=? now - 7 * msPerDay)%Z.

Definition nonEmpty (entry : string * list Conversation) : bool :=
  (0 <? List.length (snd entry))%nat.

End ConversationSidebar.

(** ** [ChatInput]: the message box *)

Module ChatInput.
Import Js Chat.

Inductive SuggestionType := command | document | suggestion.

Record Suggestion := { text : string; stype : SuggestionType }.

Definition COMMON_SUGGESTIONS : list Suggestion :=
  [ {| text := "Summarize the main points from"; stype := command |};
    {| text := "What does this document say about"; stype := command |};
    {| text := "Find information related to"; stype := command |};
    {| text := "Compare the information between"; stype := command |};
    {| text := "List the key findings from"; stype := command |};
    {| text := "Explain the concept of"; stype := command |} ].

Record File := { name : string; size : Z; mime : string }.

(** The props the component reads ([onSendMessage] is the caller's
    handler: the handlers below return the call they make to it). *)
Record Props := { isLoading : bool; disabled : bool }.

(** The [useState] cells, but for the typing-indicator timer.  The
    handlers of this component are synchronous and run in the render that
    follows the previous event, so what their closures captured is the
    store itself. *)
Record State := {
  message : string;
  attachedFiles : list File;
  showSuggestions : bool;
  selectedSuggestion : Z;
  filteredSuggestions : list Suggestion
}.

Definition initialState : State :=
  {| message := ""; attachedFiles := []; showSuggestions := false;
     selectedSuggestion := 0; filteredSuggestions := [] |}.

(** The [maxLength] attribute of the textarea: the browser lets the user
    edit the field's value up to this many code units. *)
Definition maxLength : nat := 1000.

(** A call [onSendMessage(message, attachedFiles)]. *)
Definition SendCall : Type := (string * option (list File))%type.

(** The auto-complete effect (its dependency list is [message]). *)
Definition autoCompleteEffect (st : State) : State :=
  let words := split " " (toLowerCase (message st)) in
  let currentWord := last words "" in
  if (0 <? String.length currentWord)%nat then
    let filtered :=
      filter (fun s => includes (toLowerCase (text s)) currentWord)
             COMMON_SUGGESTIONS in
    {| message := message st; attachedFiles := attachedFiles st;
       showSuggestions := (0 <? List.length filtered)%nat;
       selectedSuggestion := 0;
       filteredSuggestions := filtered |}
  else
    {| message := message st; attachedFiles := attachedFiles st;
       showSuggestions := false;
       selectedSuggestion := selectedSuggestion st;
       filteredSuggestions := [] |}.

(** A render after a handler ran: the effect's dependency is [message],
    so it runs when the handler changed it. *)
Definition afterRender (before st : State) : State :=
  if String.eqb (message before) (message st) then st
  else autoCompleteEffect st.

Definition setMessage (v : string) (st : State) : State :=
  {| message := v; attachedFiles := attachedFiles st;
     showSuggestions := showSuggestions st;
     selectedSuggestion := selectedSuggestion st;
     filteredSuggestions := filteredSuggestions st |}.

Definition setAttachedFiles (v : list File) (st : State) : State :=
  {| message := message st; attachedFiles := v;
     showSuggestions := showSuggestions st;
     selectedSuggestion := selectedSuggestion st;
     filteredSuggestions := filteredSuggestions st |}.

Definition setShowSuggestions (v : bool) (st : State) : State :=
  {| message := message st; attachedFiles := attachedFiles st;
     showSuggestions := v;
     selectedSuggestion := selectedSuggestion st;
     filteredSuggestions := filteredSuggestions st |}.

Definition setSelectedSuggestion (f : Z -> Z) (st : State) : State :=
  {| message := message st; attachedFiles := attachedFiles st;
     showSuggestions := showSuggestions st;
     selectedSuggestion := f (selectedSuggestion st);
     filteredSuggestions := filteredSuggestions st |}.

Definition setFilteredSuggestions (v : list Suggestion) (st : State) : State :=
  {| message := message st; attachedFiles := attachedFiles st;
     showSuggestions := showSuggestions st;
     selectedSuggestion := selectedSuggestion st;
     filteredSuggestions := v |}.

Definition handleSubmit (props : Props) (st : State) : State * option SendCall :=
  if truthy (trim (message st)) && negb (isLoading props) && negb (disabled props)
  then
    let call :=
      (trim (message st),
       if (0 <? List.length (attachedFiles st))%nat
       then Some (attachedFiles st) else None) in
    let st' := setMessage "" st in
    let st' := setAttachedFiles [] st' in
    let st' := setShowSuggestions false st' in
    (st', Some call)
  else (st, None).

(** [handleInputChange]: the event carries the field's new value. *)
Definition handleInputChange (newMessage : string) (st : State) : State :=
  setMessage newMessage st.

(** The replacement that both [applySuggestion] and the Tab/Enter case
    of [handleKeyDown] perform. *)
Definition completeWith (s : Suggestion) (st : State) : State :=
  let words := split " " (message st) in
  let words := setLast words (text s) in
  setShowSuggestions false (setMessage (join " " words ++ " ")%string st).

Definition applySuggestion (s : Suggestion) (st : State) : State :=
  completeWith s st.

Inductive Key :=
| ArrowUp | ArrowDown | Tab | Escape
| Enter (shiftKey : bool)
| Slash (ctrlOrMeta : bool)
| OtherKey.

(** [filteredSuggestions[selectedSuggestion]]. *)
Definition selected (st : State) : option Suggestion :=
  if (selectedSuggestion st <? 0)%Z then None
  else nth_error (filteredSuggestions st) (Z.to_nat (selectedSuggestion st)).

Definition handleKeyDown (props : Props) (key : Key) (st : State)
  : State * option SendCall :=
  if showSuggestions st then
    let n := Z.of_nat (List.length (filteredSuggestions st)) in
    match key with
    | ArrowUp =>
        (setSelectedSuggestion
           (fun prev => if (0 <? prev)%Z then prev - 1 else n - 1)%Z st, None)
    | ArrowDown =>
        (setSelectedSuggestion
           (fun prev => if (prev <? n - 1)%Z then prev + 1 else 0)%Z st, None)
    | Tab | Enter false =>
        match selected st with
        | Some s => (completeWith s st, None)
        | None => (st, None)
        end
    | Escape => (setShowSuggestions false st, None)
    | _ => (st, None)
    end
  else
    match key with
    | Enter false => handleSubmit props st
    | Slash true =>
        (setFilteredSuggestions COMMON_SUGGESTIONS (setShowSuggestions true st),
         None)
    | _ => (st, None)
    end.

End ChatInput.

(** ** Concrete sessions *)

Module Session.
Import Js Chat ChatInterface.

Definition env : Env := {| NEXT_PUBLIC_ENABLE_STREAMING := Some "true" |}.

Definition src1 : DocumentSource :=
  {| filename := "book.pdf"; chunk_text := "Chapter 1 opens with X.";
     relevance_score := QArith_base.Qmake 9 10; document_id := Some "d1" |}.

Definition src2 : DocumentSource :=
  {| filename := "notes.md"; chunk_text := "X, in short.";
     relevance_score := QArith_base.Qmake 7 10; document_id := None |}.

Definition ev_message (c : string) : StreamingChatResponse :=
  {| type := type_message; ev_content := Some c;
     ev_source := None; ev_error := None |}.

Definition ev_src (s : DocumentSource) : StreamingChatResponse :=
  {| type := type_source; ev_content := None;
     ev_source := Some s; ev_error := None |}.

Definition ev_done : StreamingChatResponse :=
  {| type := type_done; ev_content := None;
     ev_source := None; ev_error := None |}.

Definition ev_err (reason : string) : StreamingChatResponse :=
  {| type := type_error; ev_content := None;
     ev_source := None; ev_error := Some reason |}.

(** A fresh, conversation-less component. *)
Definition fresh : State := initialState None.

(** The user sends "Summarize chapter 1" at time 1000. *)
Definition sent : Task :=
  handleSendMessage env fresh "Summarize chapter 1" 1000 fresh.

(** The backend creates conversation "c1" at time 1010. *)
Definition created : Task :=
  conversationCreated sent (fulfilled "c1") 1010 (task_state sent).

(** The stream delivers two citations, the answer in two fragments, and
    [done]. *)
Definition chapter1 : list (Z * StreamingChatResponse) :=
  [ (1020, ev_src src1); (1021, ev_src src2);
    (1030, ev_message "Chapter 1 "); (1031, ev_message "discusses X.");
    (1040, ev_done) ]%Z.

(** The callbacks of the stream that [created] awaits. *)
Definition closure : StreamClosure :=
  {| captured_streamingMessage := ""; convId := "c1" |}.

(** The store after the first three events of [chapter1]. *)
Definition midStream : list DocumentSource * State :=
  match deliver closure (firstn 3 chapter1) [] (task_state created) with
  | Normal w => w
  | Throw _ => ([], task_state created)
  end.

(** A transcript that a loaded conversation may hold: its only message
    is an assistant's report of a failure. *)
Definition apology : Message :=
  {| id := "7"; content := "Sorry, I encountered an error: timeout. Please try again.";
     role := assistant; timestamp := 7; sources := None;
     Chat.conversationId := Some "c9" |}.

Definition loaded : State :=
  setMessages (value [apology]) (initialState (Some "c9")).

(** The transcript after a failed exchange: the question, then the
    assistant's report of the failure; nothing is in flight. *)
Definition question : Message :=
  {| id := "1000"; content := "Summarize chapter 1"; role := user;
     timestamp := 1000; sources := None; Chat.conversationId := Some "c9" |}.

Definition failed : State :=
  setError (value (Some "timeout"))
    (setMessages (value [question; apology]) (initialState (Some "c9"))).

End Session.

(** ** Concrete directories *)

Module Directory.
Import Js Chat ConversationSidebar.

Definition conv (id title : string) (updatedAt : Z) : Conversation :=
  {| conv_id := id; title := title; lastMessage := None;
     updatedAt := updatedAt; createdAt := updatedAt; messageCount := 2;
     Chat.userId := None; conv_messages := None |}.

Definition noFilters : SearchFilters :=
  {| query := None; dateRange := None; sourceDocuments := None |}.

(** Two conversations last updated at the same instant. *)
Definition alpha : Conversation := conv "a" "Alpha" 5000.
Definition beta : Conversation := conv "b" "Beta" 5000.

(** Three conversations with distinct update times. *)
Definition report : Conversation := conv "r" "Quarterly REPORT" 3000.
Definition recipe : Conversation := conv "c" "Soup recipe" 9000.
Definition reporting : Conversation :=
  {| conv_id := "g"; title := "Untitled"; lastMessage := Some "See the Report";
     updatedAt := 6000; createdAt := 1000; messageCount := 4;
     Chat.userId := None; conv_messages := None |}.

Definition sidebar (conversations : list Conversation) : State :=
  {| conversations := conversations; filteredConversations := [];
     isCollapsed := false; isLoading := false; error := None;
     searchQuery := ""; showSearch := false; showFilters := false;
     filters := noFilters; hasMore := false; page := 1;
     total := Z.of_nat (List.length conversations) |}.

Definition hour : Z := 60 * 60 * 1000.

(** The four conversations of the grouping scenario, for the instant
    [T0]: updated at [T0], 25 hours, 3 days and 40 days earlier. *)
Definition scenario (T0 : Z) : list Conversation :=
  [ conv "t" "now" T0;
    conv "y" "25 hours ago" (T0 - 25 * hour);
    conv "w" "3 days ago" (T0 - 3 * 24 * hour);
    conv "o" "40 days ago" (T0 - 40 * 24 * hour) ]%Z.

(** Half past midnight and noon, local time, on day 100 of a zone at
    offset 0. *)
Definition halfPastMidnight : Z := 100 * msPerDay + 30 * 60 * 1000.
Definition noon : Z := 100 * msPerDay + 12 * hour.

End Directory.

(** ** A concrete editing session *)

Module Typing.
Import Js Chat ChatInput.

(** [c.repeat(n)]. *)
Fixpoint repeatChar (c : ascii) (n : nat) : string :=
  match n with
  | O => EmptyString
  | S n' => String c (repeatChar c n')
  end.

(** The chat interface is idle and shows no error. *)
Definition props : Props := {| isLoading := false; disabled := false |}.

(** The user fills the field to its limit: 998 letters, a space, and the
    letter "e". *)
Definition typed : string := (repeatChar "a" 998 ++ " e")%string.

Definition afterTyping : State :=
  afterRender initialState (handleInputChange typed initialState).

(** Tab accepts the highlighted suggestion. *)
Definition afterTab : State :=
  afterRender afterTyping (fst (handleKeyDown props Tab afterTyping)).

(** Enter submits. *)
Definition afterEnter : State * option SendCall :=
  handleKeyDown props (Enter false) afterTab.

(** The fresh chat interface handles the submission at time 1000. *)
Definition transcriptAfterEnter : list Message :=
  match snd afterEnter with
  | Some (content, _) =>
      ChatInterface.messages
        (ChatInterface.task_state
           (ChatInterface.handleSendMessage Session.env Session.fresh
              content 1000 Session.fresh))
  | None => []
  end.

End Typing.

(** ** [ChatInterface], continued: the request a task awaits *)

Module ChatInterfaceRequests.
Import Js Chat ChatInterface.

(** The [ChatRequest] handed to [sendMessage] or [createStreamingChat]. *)
Definition awaitedRequest (t : Task) : option ChatRequest :=
  match t with
  | AwaitSendMessage _ request _ => Some request
  | AwaitStreamingChat _ request _ _ _ => Some request
  | _ => None
  end.

(** The text of the banner that the [catch] clause shows for [e]. *)
Definition sendBanner (e : Error) : string :=
  if isApiError e then message e else "Failed to send message".

(** The call that [t] awaits is rejected with [e] at time [now], the
    store being [st] by then. *)
Definition rejectedWith (t : Task) (e : Error) (now : Z) (st : State) : Task :=
  match t with
  | AwaitCreateConversation _ _ k => k (rejected e) now st
  | AwaitSendMessage _ _ k => k (rejected e) now st
  | AwaitStreamingChat _ _ _ _ k => k (rejected e) now st
  | Returned _ | Rejects _ _ => t
  end.

End ChatInterfaceRequests.

(** ** [ConversationSidebar], continued: loading pages *)

Module ConversationSidebarLoading.
Import Js Chat ConversationSidebar.

(** [ConversationListResponse] of [types/chat.ts]. *)
Record ConversationListResponse := {
  resp_conversations : list Conversation;
  resp_total : Z
}.

Definition setIsLoading (v : bool) (st : State) : State :=
  {| conversations := conversations st;
     filteredConversations := filteredConversations st;
     isCollapsed := isCollapsed st; isLoading := v;
     error := error st; searchQuery := searchQuery st;
     showSearch := showSearch st; showFilters := showFilters st;
     filters := filters st; hasMore := hasMore st; page := page st;
     total := total st |}.

Definition setPage (v : Z) (st : State) : State :=
  {| conversations := conversations st;
     filteredConversations := filteredConversations st;
     isCollapsed := isCollapsed st; isLoading := isLoading st;
     error := error st; searchQuery := searchQuery st;
     showSearch := showSearch st; showFilters := showFilters st;
     filters := filters st; hasMore := hasMore st; page := v;
     total := total st |}.

Definition setTotal (v : Z) (st : State) : State :=
  {| conversations := conversations st;
     filteredConversations := filteredConversations st;
     isCollapsed := isCollapsed st; isLoading := isLoading st;
     error := error st; searchQuery := searchQuery st;
     showSearch := showSearch st; showFilters := showFilters st;
     filters := filters st; hasMore := hasMore st; page := page st;
     total := v |}.

Definition setHasMore (v : bool) (st : State) : State :=
  {| conversations := conversations st;
     filteredConversations := filteredConversations st;
     isCollapsed := isCollapsed st; isLoading := isLoading st;
     error := error st; searchQuery := searchQuery st;
     showSearch := showSearch st; showFilters := showFilters st;
     filters := filters st; hasMore := v; page := page st;
     total := total st |}.

(** [loadConversations], run up to its [await]. *)
Inductive Task :=
| Finished (st : State)
| AwaitGetConversations (st : State) (userId : option string) (limit : Z)
    (k : Settled ConversationListResponse -> State -> Task).

Definition task_state (t : Task) : State :=
  match t with
  | Finished st => st
  | AwaitGetConversations st _ _ _ => st
  end.

(** The awaited [getConversations] settles with [r], the store being [st]
    by then. *)
Definition conversationsListed (t : Task)
    (r : Settled ConversationListResponse) (st : State) : Task :=
  match t with
  | AwaitGetConversations _ _ _ k => k r st
  | Finished _ => t
  end.

(** [loadConversations(reset)]; [snap] is the render whose callback runs
    ([isLoading] and [page] are read from it). *)
Definition loadConversations (props : Props) (snap : State) (reset : bool)
    (st : State) : Task :=
  if isLoading snap then Finished st
  else
    let st := setIsLoading true st in
    let st := setError None st in
    let currentPage := if reset then 1%Z else page snap in
    AwaitGetConversations st (userId props) 50
      (fun r st =>
         match r with
         | fulfilled response =>
             let st :=
               if reset
               then setPage 1 (setConversations
                                 (fun _ => resp_conversations response) st)
               else setPage (currentPage + 1)
                      (setConversations
                         (fun prev => prev ++ resp_conversations response) st) in
             let st := setTotal (resp_total response) st in
             let st :=
               setHasMore
                 (List.length (resp_conversations response) =? 50)%nat st in
             Finished (setIsLoading false st)
         | rejected e =>
             let st :=
               setError (Some (if isApiError e then message e
                               else "Failed to load conversations")) st in
             Finished (setIsLoading false st)
         end).

(** The arguments of the awaited [getConversations]. *)
Definition awaitedArguments (t : Task) : option (option string * Z) :=
  match t with
  | AwaitGetConversations _ userId limit _ => Some (userId, limit)
  | Finished _ => None
  end.

Definition handleLoadMore (props : Props) (snap st : State) : Task :=
  if hasMore snap && negb (isLoading snap)
  then loadConversations props snap false st
  else Finished st.

Definition handleRefresh (props : Props) (snap st : State) : Task :=
  loadConversations props snap true st.

End ConversationSidebarLoading.

(** ** [ChatInput], continued: attachments and the event loop *)

Module ChatInputEvents.
Import Js Chat ChatInput.

Definition maxFileSize : Z := 10 * 1024 * 1024.

Definition allowedTypes : list string :=
  [ "text/plain";
    "application/pdf";
    "application/msword";
    "application/vnd.openxmlformats-officedocument.wordprocessingml.document";
    "text/markdown" ].

(** [allowedTypes.includes(t)]. *)
Definition isAllowedType (t : string) : bool :=
  existsb (String.eqb t) allowedTypes.

(** The callback of [files.filter]: the alert it raises for [file], if it
    turns the file down. *)
Definition fileAlert (file : File) : option string :=
  if (maxFileSize <? size file)%Z
  then Some ("File " ++ name file ++ " is too large (max 10MB)")%string
  else if negb (isAllowedType (mime file))
       then Some ("File type " ++ mime file ++ " is not supported")%string
       else None.

Definition isValidFile (file : File) : bool :=
  match fileAlert file with
  | None => true
  | Some _ => false
  end.

(** [handleFileSelect]: the new store and the alerts shown, in order. *)
Definition handleFileSelect (files : list File) (st : State)
  : State * list string :=
  let validFiles := filter isValidFile files in
  let alerts :=
    flat_map (fun file => match fileAlert file with
                          | Some a => [a]
                          | None => []
                          end) files in
  (setAttachedFiles (firstn 5 (attachedFiles st ++ validFiles)) st, alerts).

(** [prev.filter((_, i) => i !== index)], counting from [i]. *)
Fixpoint dropIndex {A : Type} (index i : nat) (l : list A) : list A :=
  match l with
  | [] => []
  | x :: l' =>
      if (i =? index)%nat then dropIndex index (S i) l'
      else x :: dropIndex index (S i) l'
  end.

Definition removeFile (index : nat) (st : State) : State :=
  setAttachedFiles (dropIndex index 0 (attachedFiles st)) st.

(** What the user and the browser can do to the component. *)
Inductive Event :=
| InputChange (newMessage : string)
| KeyDown (key : Key)
| Submit
| ClickSuggestion (s : Suggestion)
| FileSelect (files : list File)
| RemoveFile (index : nat).

(** One event under the props of the current render, and the render that
    follows it. *)
Definition step (props : Props) (ev : Event) (st : State)
  : State * option SendCall :=
  let (st', call) :=
    match ev with
    | InputChange v => (handleInputChange v st, None)
    | KeyDown key => handleKeyDown props key st
    | Submit => handleSubmit props st
    | ClickSuggestion s => (applySuggestion s st, None)
    | FileSelect files => (fst (handleFileSelect files st), None)
    | RemoveFile index => (removeFile index st, None)
    end in
  (afterRender st st', call).

(** A sequence of events: the final store and the calls of
    [onSendMessage] made on the way, in order. *)
Fixpoint run (events : list (Props * Event)) (st : State)
  : State * list SendCall :=
  match events with
  | [] => (st, [])
  | (props, ev) :: rest =>
      let (st', call) := step props ev st in
      let (st'', calls) := run rest st' in
      (st'', match call with Some c => c :: calls | None => calls end)
  end.

(** A file that [handleFileSelect] lets in. *)
Definition validFile (f : File) : Prop :=
  (size f <= maxFileSize)%Z /\ In (mime f) allowedTypes.

(** What the caller of the component can rely on in a call of
    [onSendMessage]. *)
Definition wellFormedCall (call : SendCall) : Prop :=
  fst call <> ""
  /\ trim (fst call) = fst call
  /\ match snd call with
     | None => True
     | Some files =>
         files <> [] /\ (List.length files <= 5)%nat /\ Forall validFile files
     end.

Definition attachmentsOk (st : State) : Prop :=
  (List.length (attachedFiles st) <= 5)%nat
  /\ Forall validFile (attachedFiles st).

(** The white-space-free pieces of a text ([w] holds no separator). *)
Definition spaceless (w : string) : Prop :=
  forall pre post, w <> (pre ++ String " " post)%string.

End ChatInputEvents.

(** ** More concrete directories *)

Module Pages.
Import Js Chat ConversationSidebar ConversationSidebarLoading.

(** A full page: fifty conversations, most recent first. *)
Definition fullPage : list Conversation :=
  map (fun i => Directory.conv (toString (Z.of_nat i)) "Untitled"
                  (100000 - Z.of_nat i))
      (seq 0 50).

Definition fullResponse : ConversationListResponse :=
  {| resp_conversations := fullPage; resp_total := 120 |}.

Definition props : Props :=
  {| currentConversationId := Some "c"; userId := Some "u1" |}.

(** The sidebar at mount. *)
Definition mounted : State :=
  {| conversations := []; filteredConversations := [];
     isCollapsed := false; isLoading := false; error := None;
     searchQuery := ""; showSearch := false; showFilters := false;
     filters := Directory.noFilters; hasMore := true; page := 1;
     total := 0 |}.

(** Noon of day 100, and conversations updated that morning, the evening
    before, four days and thirty days earlier. *)
Definition recent : list Conversation :=
  [ Directory.conv "m" "this morning" (Directory.noon - 3 * Directory.hour);
    Directory.conv "e" "last evening" (Directory.noon - 16 * Directory.hour);
    Directory.conv "f" "four days ago" (Directory.noon - 4 * 24 * Directory.hour);
    Directory.conv "z" "a month ago" (Directory.noon - 30 * 24 * Directory.hour) ]%Z.

End Pages.

(** ** Concrete files *)

Module Files.
Import Js Chat ChatInput ChatInputEvents.

Definition notes : File :=
  {| name := "notes.txt"; size := 2048; mime := "text/plain" |}.

Definition thesis : File :=
  {| name := "thesis.pdf"; size := 9 * 1024 * 1024; mime := "application/pdf" |}.

Definition scan : File :=
  {| name := "scan.pdf"; size := 11 * 1024 * 1024; mime := "application/pdf" |}.

Definition photo : File :=
  {| name := "photo.png"; size := 4096; mime := "image/png" |}.

(** The message box with four files attached. *)
Definition fourAttached : State :=
  setAttachedFiles [notes; thesis; notes; thesis] initialState.

(** A busy afternoon at the message box: files are selected and removed,
    a suggestion is completed, the message is submitted, and one more is
    tried while the interface is loading. *)
Definition afternoon : list (Props * Event) :=
  let idle := {| isLoading := false; disabled := false |} in
  let busy := {| isLoading := true; disabled := false |} in
  [ (idle, FileSelect [notes; scan; photo; thesis]);
    (idle, InputChange "  about chapter one  ");
    (idle, RemoveFile 0);
    (idle, Submit);
    (busy, InputChange "and two");
    (busy, KeyDown (Enter false));
    (idle, KeyDown (Enter false)) ].

End Files.

(** ** A directory with a tie *)

Module Ties.
Import Js Chat ConversationSidebar.

(** The three dated conversations of [Directory] among the two that were
    updated at one instant, in two orders. *)
Definition mixed : list Conversation :=
  [ Directory.report; Directory.alpha; Directory.recipe;
    Directory.beta; Directory.reporting ].

Definition shuffled : list Conversation :=
  [ Directory.beta; Directory.reporting; Directory.alpha;
    Directory.report; Directory.recipe ].

(** Updated up to time 7000. *)
Definition upTo7000 : SearchFilters :=
  {| query := None;
     dateRange := Some {| range_start := 0; range_end := 7000 |};
     sourceDocuments := None |}.

End Ties.

(** * Properties *)

(** ** The stream handlers and the send orchestrator *)

Module ChatInterfaceFacts.
Import Js Chat ChatInterface.

Lemma messages_abortOngoing st : messages (abortOngoing st) = messages st.
Proof. unfold abortOngoing. now destruct (abortControllerRef st). Qed.

Lemma conversationId_abortOngoing st :
  conversationId (abortOngoing st) = conversationId st.
Proof. unfold abortOngoing. now destruct (abortControllerRef st). Qed.

Lemma lastOf_snoc {A : Type} (init : list A) (x : A) :
  lastOf (init ++ [x]) = Some x.
Proof. unfold lastOf. now rewrite rev_app_distr. Qed.

Lemma lastOf_nil_inv {A : Type} (l : list A) : lastOf l = None -> l = [].
Proof.
  destruct l as [|a l] using rev_ind; [reflexivity|].
  now rewrite lastOf_snoc.
Qed.

(** An event that is not terminal leaves the transcript alone: a
    fragment goes to [streamingMessage], a citation to the array. *)
Lemma deliver_inFlight cl events : forall streamingSources st,
  inFlight events = true ->
  exists st',
    deliver cl events streamingSources st
      = Normal (streamingSources ++ streamedCitations events, st')
    /\ messages st' = messages st
    /\ streamingMessage st'
       = (streamingMessage st ++ streamedText events)%string
    /\ isStreaming st' = isStreaming st
    /\ conversationId st' = conversationId st
    /\ error st' = error st.
Proof.
  induction events as [|[now response] rest IH]; intros srcs st Hfl.
  - exists st. simpl. rewrite app_nil_r.
    repeat split.
    induction (streamingMessage st) as [|c s IHs]; simpl; congruence.
  - simpl in Hfl. apply andb_true_iff in Hfl as [Hty Hrest].
    simpl. unfold handleStreamMessage.
    destruct (type response) eqn:Ety; try discriminate.
    + destruct (ev_content response) as [c|].
      * destruct (truthy c) eqn:Etr.
        -- destruct (IH srcs (setStreamingMessage (fun prev => (prev ++ c)%string) st) Hrest)
             as (st' & Hd & Hm & Hs & Hi & Hc & He).
           exists st'. rewrite Hd. repeat split; auto.
           rewrite Hs. simpl.
           clear. induction (streamingMessage st); simpl; congruence.
        -- destruct c; [|discriminate]. simpl.
           destruct (IH srcs st Hrest) as (st' & Hd & Hrem).
           exists st'. now rewrite Hd.
      * destruct (IH srcs st Hrest) as (st' & Hd & Hrem).
        exists st'. now rewrite Hd.
    + destruct (ev_source response) as [s|].
      * destruct (IH (srcs ++ [s]) st Hrest) as (st' & Hd & Hrem).
        exists st'. rewrite Hd, <- app_assoc. now simpl.
      * destruct (IH srcs st Hrest) as (st' & Hd & Hrem).
        exists st'. now rewrite Hd.
Qed.

Lemma deliver_app cl pre post : forall streamingSources st,
  deliver cl (pre ++ post) streamingSources st
  = match deliver cl pre streamingSources st with
    | Normal (streamingSources', st') => deliver cl post streamingSources' st'
    | Throw e => Throw e
    end.
Proof.
  induction pre as [|[now response] rest IH]; intros srcs st; simpl.
  - reflexivity.
  - destruct (handleStreamMessage cl response now srcs st) as [[srcs' st']|e];
      [apply IH | reflexivity].
Qed.

(** What [done] commits, for every stream: the citations that arrived,
    in order, and as text the constant its closure captured, while the
    fragments that arrived sit in the store's [streamingMessage] and are
    then cleared. *)
Lemma done_commits_captured cl pre now response streamingSources st :
  inFlight pre = true ->
  type response = type_done ->
  exists st',
    deliver cl (pre ++ [(now, response)]) streamingSources st
      = Normal (streamingSources ++ streamedCitations pre, st')
    /\ messages st'
       = messages st ++
         [ {| id := toString now;
              content := captured_streamingMessage cl;
              role := assistant;
              timestamp := now;
              sources := Some (streamingSources ++ streamedCitations pre);
              Chat.conversationId := Some (convId cl) |} ]
    /\ streamingMessage st' = ""
    /\ isStreaming st' = false.
Proof.
  intros Hfl Hty.
  destruct (deliver_inFlight cl pre streamingSources st Hfl)
    as (st1 & Hd & Hm & _).
  rewrite deliver_app, Hd. simpl. unfold handleStreamMessage. rewrite Hty.
  eexists. split; [reflexivity|]. simpl. rewrite Hm. auto.
Qed.

(** [done] consults nothing before it appends: whatever the store holds
    when it arrives, the transcript grows by one assistant message. *)
Lemma done_always_appends cl now response streamingSources st :
  type response = type_done ->
  exists m st',
    handleStreamMessage cl response now streamingSources st
      = Normal (streamingSources, st')
    /\ messages st' = messages st ++ [m]
    /\ role m = assistant.
Proof.
  intros Hty. unfold handleStreamMessage. rewrite Hty.
  eexists. eexists. split; [reflexivity|]. simpl. split; reflexivity.
Qed.

Lemma newConversation_clears st :
  messages (handleNewConversation st) = []
  /\ conversationId (handleNewConversation st) = None
  /\ isStreaming (handleNewConversation st) = false
  /\ streamingMessage (handleNewConversation st) = "".
Proof. repeat split. Qed.

(** The [catch] clause of [handleSendMessage] sets the banner and ends
    by an exception of its own: it leaves the transcript as it was. *)
Lemma try_threw_appends_nothing e now st :
  messages (task_state (try_threw e now st)) = messages st
  /\ error (task_state (try_threw e now st))
     = Some (if isApiError e then message e else "Failed to send message")
  /\ isLoading (task_state (try_threw e now st)) = false
  /\ awaitsNetwork (try_threw e now st) = false.
Proof. repeat split. Qed.

Lemma substring_firstn (n : nat) : forall s : string,
  (n <= String.length s)%nat ->
  exists rest,
    s = (String.substring 0 n s ++ rest)%string
    /\ String.length (String.substring 0 n s) = n.
Proof.
  induction n as [|n IH]; intros s Hn.
  - exists s. now destruct s.
  - destruct s as [|c s]; simpl in Hn; [lia|].
    destruct (IH s) as (rest & Hs & Hl); [lia|].
    exists rest. simpl. split; [now rewrite <- Hs | now rewrite Hl].
Qed.

(** An accepted send, up to its first [await]. *)
Lemma handleSendMessage_accepted env snap content now st :
  truthy (trim content) = true ->
  isLoading snap = false ->
  isStreaming snap = false ->
  awaitsNetwork (handleSendMessage env snap content now st) = true
  /\ messages (task_state (handleSendMessage env snap content now st))
     = messages st ++
       [ {| id := toString now;
            content := trim content;
            role := user;
            timestamp := now;
            sources := None;
            Chat.conversationId := conversationId snap |} ].
Proof.
  intros Hc Hl Hs. unfold handleSendMessage.
  rewrite Hc, Hl, Hs. simpl.
  destruct (conversationId snap) as [c|]; [destruct (truthy c)|];
    unfold handleStreamingResponse, handleRegularResponse;
    destruct (streamingEnabled env); simpl;
    rewrite ?messages_abortOngoing; split; reflexivity.
Qed.

(** A rejected send: blank content, or a send or stream in flight in the
    render that handles it. *)
Lemma handleSendMessage_rejected env snap content now st :
  negb (truthy (trim content)) || isLoading snap || isStreaming snap = true ->
  handleSendMessage env snap content now st = Returned st.
Proof. intros H. unfold handleSendMessage. now rewrite H. Qed.

(** C1 (the code departs from it).  The stream of the scenario carries
    the text "Chapter 1 discusses X." and two citations and reaches
    [done]; the assistant message that [done] appends holds the two
    citations in arrival order, and the empty string as content: the
    [streamingMessage] that the closure captured when the send started,
    not the concatenation of the fragments. *)
Theorem done_appends_captured_text_not_streamed_text :
  awaitedStream Session.created
    = Some ({| req_message := "Summarize chapter 1";
               req_conversation_id := "c1" |}, Session.closure, [])
  /\ streamedText Session.chapter1 = "Chapter 1 discusses X."
  /\ streamedCitations Session.chapter1 = [Session.src1; Session.src2]
  /\ exists st,
       deliver Session.closure Session.chapter1 [] (task_state Session.created)
         = Normal ([Session.src1; Session.src2], st)
       /\ map (fun m => (role m, content m, sources m)) (messages st)
          = [ (user, "Summarize chapter 1", None);
              (assistant, "", Some [Session.src1; Session.src2]) ].
Proof.
  split; [reflexivity|]. split; [reflexivity|]. split; [reflexivity|].
  eexists. split; reflexivity.
Qed.

(** C2 (the code departs from it).  In mid-stream the user starts a new
    conversation: the transcript is empty immediately afterwards.  The
    [done] event of the old stream then arrives at the old callback,
    which appends its assistant message to the emptied transcript. *)
Theorem stale_done_appends_after_newConversation :
  let cleared := handleNewConversation (snd Session.midStream) in
  messages (snd Session.midStream) <> []
  /\ messages cleared = []
  /\ exists st,
       handleStreamMessage Session.closure Session.ev_done 1040
         (fst Session.midStream) cleared
         = Normal (fst Session.midStream, st)
       /\ messages st
          = [ {| id := "1040"; content := ""; role := assistant;
                 timestamp := 1040;
                 sources := Some [Session.src1; Session.src2];
                 Chat.conversationId := Some "c1" |} ].
Proof.
  split; [discriminate|]. split; [reflexivity|].
  eexists. split; reflexivity.
Qed.

(** C3 (the code departs from it).  A failure reported to the stream's
    error callback sets the banner to the error's message and leaves the
    transcript as it was, whatever the store holds; in the scenario, the
    transcript after the failure is the user's message alone.  An [error]
    event makes the message callback throw a plain [Error] that carries
    the reason. *)
Theorem stream_failure_sets_banner_appends_nothing :
  (forall e st,
      error (handleStreamError e st) = Some (message e)
      /\ messages (handleStreamError e st) = messages st
      /\ isStreaming (handleStreamError e st) = false)
  /\ map (fun m => (role m, content m))
       (messages (handleStreamError (newError "Network down")
                    (snd Session.midStream)))
     = [ (user, "Summarize chapter 1") ]
  /\ handleStreamMessage Session.closure (Session.ev_err "quota exceeded")
       1035 (fst Session.midStream) (snd Session.midStream)
     = Throw {| isApiError := false; message := "quota exceeded" |}.
Proof.
  split; [intros e st; repeat split|]. split; reflexivity.
Qed.

(** C6.  A valid submission (non-blank, with no send or stream in flight
    in the render that handles it) suspends at its first network call
    with the transcript grown by exactly one message: the user's, whose
    content is the trimmed submission. *)
Theorem send_appends_user_message_before_network
    env snap content now st :
  truthy (trim content) = true ->
  isLoading snap = false ->
  isStreaming snap = false ->
  let t := handleSendMessage env snap content now st in
  awaitsNetwork t = true
  /\ messages (task_state t)
     = messages st ++
       [ {| id := toString now;
            content := trim content;
            role := user;
            timestamp := now;
            sources := None;
            Chat.conversationId := conversationId snap |} ].
Proof.
  intros Hc Hl Hs t. subst t.
  now apply handleSendMessage_accepted.
Qed.

(** The first send of [Session.fresh]. *)
Lemma send_appends_user_message_before_network_witness :
  awaitsNetwork Session.sent = true
  /\ messages (task_state Session.sent)
     = [ {| id := "1000"; content := "Summarize chapter 1"; role := user;
            timestamp := 1000; sources := None;
            Chat.conversationId := None |} ].
Proof.
  exact (send_appends_user_message_before_network
           Session.env Session.fresh "Summarize chapter 1" 1000 Session.fresh
           eq_refl eq_refl eq_refl).
Defined.

(** C7.  A valid first send of a conversation-less session asks the
    backend for a conversation whose title is the submitted content when
    that is at most 50 characters long, and otherwise its first 47
    characters followed by "..."; the identifier the backend answers
    becomes the active conversation.  "Summarize chapter 1" is its own
    title. *)
Theorem first_send_creates_titled_conversation
    env snap content now st :
  truthy (trim content) = true ->
  isLoading snap = false ->
  isStreaming snap = false ->
  truthy_opt (conversationId snap) = false ->
  let t := handleSendMessage env snap content now st in
  (exists title,
      awaitedTitle t = Some title
      /\ ((String.length content <= 50)%nat -> title = content)
      /\ ((50 < String.length content)%nat ->
          exists first rest,
            content = (first ++ rest)%string
            /\ String.length first = 47%nat
            /\ title = (first ++ "...")%string))
  /\ (forall conversation_id now' st',
        conversationId
          (task_state (conversationCreated t (fulfilled conversation_id) now' st'))
        = Some conversation_id)
  /\ awaitedTitle Session.sent = Some "Summarize chapter 1".
Proof.
  intros Hc Hl Hs Hid t.
  assert (Htitle : exists title,
             conversationTitle content = title
             /\ ((String.length content <= 50)%nat -> title = content)
             /\ ((50 < String.length content)%nat ->
                 exists first rest,
                   content = (first ++ rest)%string
                   /\ String.length first = 47%nat
                   /\ title = (first ++ "...")%string)).
  { exists (conversationTitle content). split; [reflexivity|].
    unfold conversationTitle. split; intros Hlen.
    - apply Nat.ltb_ge in Hlen. now rewrite Hlen.
    - destruct (substring_firstn 47 content) as (rest & Hsplit & Hfirst); [lia|].
      apply Nat.ltb_lt in Hlen. rewrite Hlen.
      exists (String.substring 0 47 content), rest. auto. }
  destruct Htitle as (title & Htitle & Hshort & Hlong).
  subst t. unfold handleSendMessage. rewrite Hc, Hl, Hs. simpl.
  assert (Hcase : conversationId snap = None
                  \/ exists c, conversationId snap = Some c /\ truthy c = false).
  { destruct (conversationId snap) as [c|]; [right; now exists c | now left]. }
  destruct Hcase as [Hnone | (c & Hsome & Hfalsy)];
    [rewrite Hnone | rewrite Hsome, Hfalsy]; simpl;
    (split; [exists title; rewrite Htitle; auto|]);
    (split; [|reflexivity]);
    intros cid now' st';
    unfold handleStreamingResponse, handleRegularResponse;
    now destruct (streamingEnabled env).
Qed.

(** The title of the first send of [Session.fresh]. *)
Lemma first_send_creates_titled_conversation_witness :
  (exists title,
      awaitedTitle Session.sent = Some title
      /\ ((String.length "Summarize chapter 1" <= 50)%nat
          -> title = "Summarize chapter 1")
      /\ ((50 < String.length "Summarize chapter 1")%nat ->
          exists first rest,
            "Summarize chapter 1" = (first ++ rest)%string
            /\ String.length first = 47%nat
            /\ title = (first ++ "...")%string))
  /\ (forall conversation_id now' st',
        conversationId
          (task_state (conversationCreated Session.sent
                         (fulfilled conversation_id) now' st'))
        = Some conversation_id)
  /\ awaitedTitle Session.sent = Some "Summarize chapter 1".
Proof.
  exact (first_send_creates_titled_conversation
           Session.env Session.fresh "Summarize chapter 1" 1000 Session.fresh
           eq_refl eq_refl eq_refl eq_refl).
Defined.

Lemma lastUser_of_transcript (pre post : list Message) (lastUser : Message) :
  role lastUser = user ->
  Forall (fun m => role m = assistant) post ->
  lastOf (filter (fun m => Role_eqb (role m) user) (pre ++ lastUser :: post))
  = Some lastUser.
Proof.
  intros Hu Hpost. rewrite filter_app. simpl. rewrite Hu. simpl.
  replace (filter (fun m => Role_eqb (role m) user) post) with (@nil Message).
  - apply lastOf_snoc.
  - induction Hpost as [|m post Hm _ IH]; simpl; [reflexivity|].
    now rewrite Hm.
Qed.

Lemma dropTrailingError_snoc (init : list Message) (m : Message) :
  dropTrailingError (init ++ [m]) = if errorLike m then init else init ++ [m].
Proof.
  unfold dropTrailingError. rewrite lastOf_snoc.
  destruct (errorLike m); [apply removelast_last | reflexivity].
Qed.

(** [handleRetry] does nothing at all on a transcript with no user
    message. *)
Lemma retry_without_user_message env snap now st :
  Forall (fun m => role m = assistant) (messages snap) ->
  handleRetry env snap now st = Returned st.
Proof.
  intros Hall. unfold handleRetry.
  replace (filter (fun m => Role_eqb (role m) user) (messages snap))
    with (@nil Message).
  - now destruct (0 <? List.length (messages snap))%nat.
  - induction Hall as [|m l Hm _ IH]; simpl; [reflexivity|]. now rewrite Hm.
Qed.

(** C4, as stated, fails: the only message of this transcript is an
    assistant message that satisfies the error-like test, and retry leaves
    it in place (there is no user message to send again). *)
Lemma retry_keeps_trailing_error_without_user_message :
  lastOf (messages Session.loaded) = Some Session.apology
  /\ errorLike Session.apology = true
  /\ handleRetry Session.env Session.loaded 50 Session.loaded
     = Returned Session.loaded
  /\ messages Session.loaded = [Session.apology].
Proof. repeat split. Qed.

(** C4, amended.  On a transcript that holds a user message, retry
    removes the trailing message of the current transcript exactly when it
    is an assistant message whose content contains "error" (the removal
    step changes nothing otherwise), and then hands the content of the
    most recent user message to send: unless that content is blank or a
    send or stream is in flight, send appends one user message with the
    trimmed content after what the removal kept, and suspends at its first
    network call, so the transcript no longer ends with the error
    message. *)
Theorem retry_drops_trailing_error_then_resends
    env snap now st pre lastUser post :
  messages snap = pre ++ lastUser :: post ->
  role lastUser = user ->
  Forall (fun m => role m = assistant) post ->
  let t := handleRetry env snap now st in
  let kept := dropTrailingError (messages st) in
  let busy :=
    negb (truthy (trim (content lastUser))) || isLoading snap || isStreaming snap in
  let resent :=
    {| id := toString now;
       content := trim (content lastUser);
       role := user;
       timestamp := now;
       sources := None;
       Chat.conversationId := conversationId snap |} in
  (forall init m, messages st = init ++ [m] ->
                  kept = if errorLike m then init else messages st)
  /\ (messages st = [] -> kept = [])
  /\ messages (task_state t) = (if busy then kept else kept ++ [resent])
  /\ awaitsNetwork t = negb busy
  /\ errorLike resent = false.
Proof.
  intros Hsnap Hu Hpost t kept busy resent.
  assert (Ht : t = handleSendMessage env snap (content lastUser) now
                     (setMessages dropTrailingError st)).
  { subst t. unfold handleRetry.
    rewrite Hsnap, lastUser_of_transcript by assumption.
    rewrite length_app. simpl.
    now replace (0 <? List.length pre + S (List.length post))%nat with true
      by (symmetry; apply Nat.ltb_lt; lia). }
  assert (Hsend : messages (task_state t)
                  = (if busy then kept else kept ++ [resent])
                  /\ awaitsNetwork t = negb busy).
  { rewrite Ht. destruct busy eqn:Hbusy.
    - now rewrite handleSendMessage_rejected.
    - subst busy. apply orb_false_iff in Hbusy as [Hbusy Hs].
      apply orb_false_iff in Hbusy as [Hc Hl].
      apply negb_false_iff in Hc.
      destruct (handleSendMessage_accepted env snap (content lastUser) now
                  (setMessages dropTrailingError st) Hc Hl Hs) as [-> ->].
      now split. }
  destruct Hsend as [Hmessages Hawaits].
  repeat split; try assumption.
  - intros init m Hst. subst kept. rewrite Hst. apply dropTrailingError_snoc.
  - intros Hst. subst kept. now rewrite Hst.
Qed.

(** The retry of [Session.failed]: the apology goes, the question is sent
    again. *)
Lemma retry_drops_trailing_error_then_resends_witness :
  dropTrailingError (messages Session.failed) = [Session.question]
  /\ map (fun m => (role m, content m))
       (messages (task_state
                    (handleRetry Session.env Session.failed 2000 Session.failed)))
     = [ (user, "Summarize chapter 1"); (user, "Summarize chapter 1") ]
  /\ awaitsNetwork (handleRetry Session.env Session.failed 2000 Session.failed)
     = true.
Proof.
  destruct (retry_drops_trailing_error_then_resends
              Session.env Session.failed 2000 Session.failed
              [] Session.question [Session.apology]
              eq_refl eq_refl
              (Forall_cons Session.apology
                 (eq_refl : role Session.apology = assistant)
                 (Forall_nil _)))
    as (Hkept & _ & Hmsgs & Hawait & _).
  split; [|split].
  - exact (Hkept [Session.question] Session.apology eq_refl).
  - rewrite Hmsgs. reflexivity.
  - rewrite Hawait. reflexivity.
Defined.

End ChatInterfaceFacts.

(** ** The conversation directory *)

Module ConversationSidebarFacts.
Import Js Chat ConversationSidebar.

(** *** Deleting *)

Lemma filter_remove_one {A : Type} (f : A -> bool) (l1 l2 : list A) (c : A) :
  f c = false ->
  Forall (fun c' => f c' = true) (l1 ++ l2) ->
  filter f (l1 ++ c :: l2) = l1 ++ l2.
Proof.
  intros Hc Hall. apply Forall_app in Hall as [H1 H2].
  rewrite filter_app. simpl. rewrite Hc. f_equal.
  - clear -H1. induction H1 as [|x l Hx _ IH]; simpl; [reflexivity|].
    now rewrite Hx, IH.
  - clear -H2. induction H2 as [|x l Hx _ IH]; simpl; [reflexivity|].
    now rewrite Hx, IH.
Qed.

(** C9.  A confirmed, successful deletion of a conversation that is not
    the active one leaves the chat component's store (transcript, active
    conversation id and the rest) as it was, removes from the directory
    the entries with that id and keeps every other entry, in order; the
    other cells of the sidebar are unchanged. *)
Theorem delete_inactive_conversation_frame
    props conversationId st (chat : ChatInterface.State) :
  currentConversationId props <> Some conversationId ->
  let w := handleDeleteConversation props conversationId true (fulfilled tt)
             (st, chat) in
  snd w = chat
  /\ (forall c, In c (conversations (fst w))
                <-> In c (conversations st) /\ conv_id c <> conversationId)
  /\ (forall l1 c l2,
         conversations st = l1 ++ c :: l2 ->
         conv_id c = conversationId ->
         Forall (fun c' => conv_id c' <> conversationId) (l1 ++ l2) ->
         conversations (fst w) = l1 ++ l2)
  /\ (error (fst w), searchQuery (fst w), filters (fst w), total (fst w))
     = (error st, searchQuery st, filters st, total st).
Proof.
  intros Hactive w.
  assert (Hw : w = (setConversations
                      (fun prev =>
                         filter (fun c => negb (String.eqb (conv_id c) conversationId))
                                prev) st, chat)).
  { subst w. unfold handleDeleteConversation. simpl.
    destruct (currentConversationId props) as [cur|]; [|reflexivity].
    destruct (String.eqb_spec cur conversationId) as [->|]; [|reflexivity].
    now contradiction Hactive. }
  rewrite Hw. simpl. split; [reflexivity|]. split; [|split; [|reflexivity]].
  - intros c. rewrite filter_In, negb_true_iff.
    now destruct (String.eqb_spec (conv_id c) conversationId).
  - intros l1 c l2 Hst Hc Hothers. rewrite Hst.
    apply filter_remove_one.
    + apply negb_false_iff. now apply String.eqb_eq.
    + eapply Forall_impl; [|exact Hothers]. intros c' Hc'. simpl in Hc'.
      apply negb_true_iff. now apply String.eqb_neq.
Qed.

(** Deleting the report while the recipe is the active conversation. *)
Lemma delete_inactive_conversation_frame_witness :
  let w := handleDeleteConversation
             {| currentConversationId := Some "c"; userId := None |}
             "r" true (fulfilled tt)
             (Directory.sidebar [Directory.recipe; Directory.report; Directory.reporting],
              Session.failed) in
  snd w = Session.failed
  /\ conversations (fst w) = [Directory.recipe; Directory.reporting].
Proof.
  destruct (delete_inactive_conversation_frame
              {| currentConversationId := Some "c"; userId := None |}
              "r"
              (Directory.sidebar [Directory.recipe; Directory.report; Directory.reporting])
              Session.failed
              ltac:(discriminate))
    as (Hchat & _ & Hlist & _).
  split; [exact Hchat|].
  apply (Hlist [Directory.recipe] Directory.report [Directory.reporting] eq_refl eq_refl).
  repeat constructor; discriminate.
Defined.

(** *** Filtering *)

Lemma prefix_spec (q : string) : forall s,
  prefix q s = true <-> exists post, s = (q ++ post)%string.
Proof.
  induction q as [|c q IH]; intros s.
  - split; [intros _; now exists s | now destruct s].
  - destruct s as [|c' s]; simpl.
    + split; [discriminate | intros (post & H); discriminate].
    + destruct (ascii_dec c c') as [->|Hne].
      * rewrite IH. split; intros (post & H); exists post; congruence.
      * split; [discriminate|]. intros (post & H). congruence.
Qed.

Lemma includes_unfold (s q : string) :
  includes s q
  = prefix q s || match s with
                  | EmptyString => false
                  | String _ s' => includes s' q
                  end.
Proof. now destruct s. Qed.

Lemma includes_spec (s q : string) :
  includes s q = true <-> exists pre post, s = (pre ++ q ++ post)%string.
Proof.
  split.
  - induction s as [|c s IH]; rewrite includes_unfold; intros H.
    + rewrite orb_false_r in H. apply prefix_spec in H as (post & H).
      now exists "", post.
    + apply orb_true_iff in H as [H|H].
      * apply prefix_spec in H as (post & H). now exists "", post.
      * destruct (IH H) as (pre & post & Hs).
        exists (String c pre), post. simpl. now rewrite Hs.
  - intros (pre & post & Hs). subst s.
    induction pre as [|c pre IH].
    + rewrite includes_unfold. apply orb_true_iff. left.
      apply prefix_spec. now exists post.
    + rewrite includes_unfold. apply orb_true_iff. right. exact IH.
Qed.

Lemma matchesQuery_spec (searchQuery : string) (conv : Conversation) :
  matchesQuery (toLowerCase searchQuery) conv = true
  <-> matchesText searchQuery conv.
Proof.
  unfold matchesQuery, matchesText, containsIgnoringCase.
  rewrite orb_true_iff, includes_spec. split; intros [H|H]; auto; right.
  - destruct (lastMessage conv) as [m|]; [|discriminate].
    exists m. split; [reflexivity|]. now apply includes_spec.
  - destruct H as (m & -> & H). now apply includes_spec.
Qed.

Lemma inDateRange_spec (r : DateRange) (conv : Conversation) :
  inDateRange r conv = true
  <-> (range_start r <= updatedAt conv <= range_end r)%Z.
Proof. unfold inDateRange. rewrite andb_true_iff, !Z.leb_le. reflexivity. Qed.

Section Sort.
Context {A : Type} (compare : A -> A -> Z).

Lemma insertSorted_perm (x : A) (l : list A) :
  Permutation (insertSorted compare x l) (x :: l).
Proof.
  induction l as [|y l IH]; simpl; [reflexivity|].
  destruct (compare x y <=? 0)%Z; [reflexivity|].
  rewrite IH. apply perm_swap.
Qed.

Lemma sort_perm (l : list A) : Permutation (sort compare l) l.
Proof.
  induction l as [|x l IH]; simpl; [reflexivity|].
  rewrite insertSorted_perm. now constructor.
Qed.

(** Sorting does nothing to a list that is in order already: equal keys
    keep their places. *)
Lemma sort_sorted_id (l : list A) :
  StronglySorted (fun a b => (compare a b <= 0)%Z) l -> sort compare l = l.
Proof.
  induction 1 as [|x l Hl IH Hx]; simpl; [reflexivity|].
  rewrite IH. destruct Hx as [|y l' Hxy _]; simpl; [reflexivity|].
  apply Z.leb_le in Hxy. now rewrite Hxy.
Qed.

End Sort.

Lemma insertSorted_sorted (x : Conversation) (l : list Conversation) :
  StronglySorted notOlder l ->
  StronglySorted notOlder (insertSorted mostRecentFirst x l).
Proof.
  induction 1 as [|y l Hl IH Hy]; simpl.
  - repeat constructor.
  - unfold mostRecentFirst at 1.
    destruct (Z.leb_spec (updatedAt y - updatedAt x) 0) as [Hle|Hgt].
    + constructor; [now constructor|].
      constructor; [unfold notOlder; lia|].
      eapply Forall_impl; [|exact Hy]. unfold notOlder. intros z Hz. lia.
    + constructor; [exact IH|].
      eapply Permutation_Forall; [symmetry; apply insertSorted_perm|].
      constructor; [unfold notOlder; lia | exact Hy].
Qed.

Lemma sort_sorted (l : list Conversation) :
  StronglySorted notOlder (sort mostRecentFirst l).
Proof.
  induction l as [|x l IH]; simpl; [constructor|].
  now apply insertSorted_sorted.
Qed.

Lemma filter_perm {A : Type} (f : A -> bool) (l l' : list A) :
  Permutation l l' -> Permutation (filter f l) (filter f l').
Proof.
  induction 1 as [|x l l' _ IH|x y l|l l' l'' _ IH1 _ IH2]; simpl.
  - constructor.
  - destruct (f x); [now constructor | exact IH].
  - destruct (f x), (f y); try reflexivity. apply perm_swap.
  - now transitivity (filter f l').
Qed.

(** Two lists sorted most recent first that hold the same conversations
    are the same list, when equal update times mean equal conversations. *)
Lemma sorted_perm_unique (l1 : list Conversation) : forall l2,
  Permutation l1 l2 ->
  StronglySorted notOlder l1 ->
  StronglySorted notOlder l2 ->
  (forall x y, In x l1 -> In y l1 -> updatedAt x = updatedAt y -> x = y) ->
  l1 = l2.
Proof.
  induction l1 as [|x l1 IH]; intros l2 Hperm H1 H2 Hinj.
  - now apply Permutation_nil in Hperm.
  - destruct l2 as [|y l2].
    + symmetry in Hperm. now apply Permutation_nil in Hperm.
    + apply StronglySorted_inv in H1 as [H1 Hx].
      apply StronglySorted_inv in H2 as [H2 Hy].
      rewrite Forall_forall in Hx, Hy.
      assert (Hxy : x = y).
      { assert (Hxin : In x (y :: l2))
          by (eapply Permutation_in; [exact Hperm | now left]).
        assert (Hyin : In y (x :: l1))
          by (eapply Permutation_in; [symmetry; exact Hperm | now left]).
        destruct Hxin as [->|Hxin]; [reflexivity|].
        destruct Hyin as [->|Hyin]; [reflexivity|].
        apply Hinj; [now left | now right |].
        specialize (Hx y Hyin). specialize (Hy x Hxin).
        unfold notOlder in Hx, Hy. lia. }
      subst y. f_equal.
      apply IH; auto.
      * now apply Permutation_cons_inv in Hperm.
      * intros a b Ha Hb. apply Hinj; now right.
Qed.

Lemma NoDup_map_injective {A B : Type} (f : A -> B) (l : list A) :
  NoDup (map f l) ->
  forall x y, In x l -> In y l -> f x = f y -> x = y.
Proof.
  induction l as [|a l IH]; simpl; intros Hnd x y Hx Hy Hf; [contradiction|].
  apply NoDup_cons_iff in Hnd as [Hnotin Hnd].
  destruct Hx as [->|Hx], Hy as [->|Hy]; auto.
  - exfalso. apply Hnotin. rewrite Hf. now apply in_map.
  - exfalso. apply Hnotin. rewrite <- Hf. now apply in_map.
Qed.

Lemma filterConversations_eq conversations searchQuery filters :
  filterConversations conversations searchQuery filters
  = sort mostRecentFirst (filter (kept searchQuery filters) conversations).
Proof.
  unfold filterConversations, kept. f_equal.
  destruct (truthy (trim searchQuery)), (dateRange filters) as [r|]; simpl.
  - induction conversations as [|c l IH]; simpl; [reflexivity|].
    destruct (matchesQuery (toLowerCase searchQuery) c); simpl;
      [destruct (inDateRange r c)|]; now rewrite IH.
  - induction conversations as [|c l IH]; simpl; [reflexivity|].
    rewrite andb_true_r.
    destruct (matchesQuery (toLowerCase searchQuery) c); now rewrite IH.
  - reflexivity.
  - induction conversations as [|c l IH]; simpl; congruence.
Qed.

Lemma kept_spec searchQuery filters conv :
  kept searchQuery filters conv = true
  <-> (truthy (trim searchQuery) = true -> matchesText searchQuery conv)
      /\ withinRange (dateRange filters) conv.
Proof.
  unfold kept, withinRange. rewrite andb_true_iff.
  destruct (truthy (trim searchQuery)).
  - rewrite matchesQuery_spec.
    destruct (dateRange filters) as [r|]; [rewrite inDateRange_spec|]; intuition.
  - destruct (dateRange filters) as [r|]; [rewrite inDateRange_spec|];
      intuition discriminate.
Qed.

(** The effect keeps exactly the conversations that pass both tests, and
    hands them over most recent first, whatever the input order. *)
Lemma filterConversations_selects_and_sorts conversations searchQuery filters :
  (forall c, In c (filterConversations conversations searchQuery filters)
             <-> In c conversations
                 /\ (truthy (trim searchQuery) = true -> matchesText searchQuery c)
                 /\ withinRange (dateRange filters) c)
  /\ StronglySorted notOlder (filterConversations conversations searchQuery filters).
Proof.
  rewrite filterConversations_eq. split; [|apply sort_sorted].
  intros c. rewrite <- kept_spec, <- filter_In.
  split; apply Permutation_in; [|symmetry]; apply sort_perm.
Qed.

(** C8, as stated, fails: two conversations last updated at the same
    instant come out in the order they went in, so the two orders of the
    same directory give different lists. *)
Lemma filter_keeps_input_order_of_equal_times :
  Permutation [Directory.alpha; Directory.beta] [Directory.beta; Directory.alpha]
  /\ filterConversations [Directory.alpha; Directory.beta] "" Directory.noFilters
     = [Directory.alpha; Directory.beta]
  /\ filterConversations [Directory.beta; Directory.alpha] "" Directory.noFilters
     = [Directory.beta; Directory.alpha]
  /\ filterConversations [Directory.alpha; Directory.beta] "" Directory.noFilters
     <> filterConversations [Directory.beta; Directory.alpha] "" Directory.noFilters.
Proof.
  split; [apply perm_swap|]. split; [reflexivity|]. split; [reflexivity|].
  discriminate.
Qed.

(** Where the insertion puts [x] in a list that is most recent first:
    behind the conversations that are more recent than [x], in front of
    the others. *)
Lemma insertSorted_split (x : Conversation) (l : list Conversation) :
  StronglySorted notOlder l ->
  insertSorted mostRecentFirst x l
  = filter (fun y => (updatedAt x <? updatedAt y)%Z) l
    ++ x :: filter (fun y => (updatedAt y <=? updatedAt x)%Z) l.
Proof.
  induction 1 as [|y l Hl IH Hy]; simpl; [reflexivity|].
  unfold mostRecentFirst at 1.
  destruct (Z.leb_spec (updatedAt y - updatedAt x) 0) as [Hle|Hgt].
  - replace (updatedAt x <? updatedAt y)%Z with false
      by (symmetry; apply Z.ltb_ge; lia).
    replace (updatedAt y <=? updatedAt x)%Z with true
      by (symmetry; apply Z.leb_le; lia).
    rewrite Forall_forall in Hy. unfold notOlder in Hy.
    replace (filter (fun y0 => (updatedAt x <? updatedAt y0)%Z) l)
      with (@nil Conversation).
    + simpl. do 2 f_equal. symmetry.
      clear -Hy Hle. induction l as [|z l IHl]; simpl; [reflexivity|].
      replace (updatedAt z <=? updatedAt x)%Z with true
        by (symmetry; apply Z.leb_le;
            specialize (Hy z (or_introl eq_refl)); lia).
      f_equal. apply IHl. intros w Hw. apply Hy. now right.
    + symmetry.
      clear -Hy Hle. induction l as [|z l IHl]; simpl; [reflexivity|].
      replace (updatedAt x <? updatedAt z)%Z with false
        by (symmetry; apply Z.ltb_ge;
            specialize (Hy z (or_introl eq_refl)); lia).
      apply IHl. intros w Hw. apply Hy. now right.
  - replace (updatedAt x <? updatedAt y)%Z with true
      by (symmetry; apply Z.ltb_lt; lia).
    replace (updatedAt y <=? updatedAt x)%Z with false
      by (symmetry; apply Z.leb_gt; lia).
    simpl. now rewrite IH.
Qed.

(** Two conversations of one update time, inserted one after the other,
    end up side by side, the later insertion in front. *)
Lemma insertSorted_twice (a b : Conversation) (l : list Conversation) :
  StronglySorted notOlder l ->
  updatedAt a = updatedAt b ->
  insertSorted mostRecentFirst a (insertSorted mostRecentFirst b l)
  = filter (fun y => (updatedAt b <? updatedAt y)%Z) l
    ++ a :: b :: filter (fun y => (updatedAt y <=? updatedAt b)%Z) l.
Proof.
  intros Hl Hab.
  rewrite (insertSorted_split a) by now apply insertSorted_sorted.
  rewrite (insertSorted_split b l Hl), Hab.
  rewrite !filter_app. simpl.
  rewrite Z.ltb_irrefl, Z.leb_refl.
  set (newer := fun y => (updatedAt b <? updatedAt y)%Z).
  set (others := fun y => (updatedAt y <=? updatedAt b)%Z).
  assert (Hnn : filter newer (filter newer l) = filter newer l).
  { clear. induction l as [|z l IH]; simpl; [reflexivity|].
    destruct (newer z) eqn:E; simpl; [now rewrite E, IH | exact IH]. }
  assert (Hno : filter newer (filter others l) = []).
  { clear. subst newer others. induction l as [|z l IH]; simpl; [reflexivity|].
    destruct (Z.leb_spec (updatedAt z) (updatedAt b)); simpl; [|exact IH].
    now replace (updatedAt b <? updatedAt z)%Z with false
      by (symmetry; apply Z.ltb_ge; lia). }
  assert (Hon : filter others (filter newer l) = []).
  { clear. subst newer others. induction l as [|z l IH]; simpl; [reflexivity|].
    destruct (Z.ltb_spec (updatedAt b) (updatedAt z)); simpl; [|exact IH].
    now replace (updatedAt z <=? updatedAt b)%Z with false
      by (symmetry; apply Z.leb_gt; lia). }
  assert (Hoo : filter others (filter others l) = filter others l).
  { clear. induction l as [|z l IH]; simpl; [reflexivity|].
    destruct (others z) eqn:E; simpl; [now rewrite E, IH | exact IH]. }
  rewrite Hnn, Hno, Hon, Hoo, app_nil_r. reflexivity.
Qed.

(** Two conversations that the filter keeps and that share their update
    time come out in the order they went in: when every order of the list
    gives one output, they are one conversation. *)
Lemma order_independence_excludes_ties conversations searchQuery filters a b :
  (forall conversations',
      Permutation conversations conversations' ->
      filterConversations conversations' searchQuery filters
      = filterConversations conversations searchQuery filters) ->
  In a (filterConversations conversations searchQuery filters) ->
  In b (filterConversations conversations searchQuery filters) ->
  updatedAt a = updatedAt b ->
  a = b.
Proof.
  intros Hall Ha Hb Hab.
  assert (Hkept : forall c,
             In c (filterConversations conversations searchQuery filters) ->
             In c conversations /\ kept searchQuery filters c = true).
  { intros c Hc. rewrite filterConversations_eq in Hc.
    eapply Permutation_in in Hc; [|apply sort_perm].
    now apply filter_In in Hc. }
  destruct (Hkept a Ha) as [Hina Hka]. destruct (Hkept b Hb) as [Hinb Hkb].
  destruct (in_split a conversations Hina) as (l1 & l2 & Hl).
  assert (Hcases : a = b \/ In b (l1 ++ l2)).
  { rewrite Hl in Hinb. apply in_app_or in Hinb as [H|[H|H]];
      [right; apply in_or_app; now left | now left
      | right; apply in_or_app; now right]. }
  destruct Hcases as [Heq|Hinb']; [exact Heq|].
  destruct (in_split b (l1 ++ l2) Hinb') as (r1 & r2 & Hr).
  set (rest := r1 ++ r2).
  assert (Hp1 : Permutation conversations (a :: b :: rest)).
  { rewrite Hl. rewrite <- Permutation_middle. constructor.
    rewrite Hr. now rewrite <- Permutation_middle. }
  assert (Hp2 : Permutation conversations (b :: a :: rest))
    by (rewrite Hp1; apply perm_swap).
  pose proof (Hall _ Hp1) as H1. pose proof (Hall _ Hp2) as H2.
  rewrite <- H2 in H1. rewrite !filterConversations_eq in H1.
  simpl in H1. rewrite Hka, Hkb in H1. simpl in H1.
  rewrite (insertSorted_twice a b) in H1 by (apply sort_sorted || exact Hab).
  rewrite (insertSorted_twice b a) in H1 by (apply sort_sorted || now symmetry).
  rewrite Hab in H1. apply app_inv_head in H1.
  now injection H1.
Qed.

(** C8, amended.  For every conversation list, search query and optional
    date range, the filter returns exactly the conversations of the list
    whose title or last-message preview contains the query, case ignored
    (every conversation, when the query is blank after trimming), and
    whose last-update time lies in the date range, ends included, when
    there is one, each as often as the list holds it and sorted by
    last-update time, most recent first; the output is the same for every
    permutation of the input list exactly when no two different
    conversations that the filter keeps share their last-update time. *)
Theorem filter_selects_sorts_and_ignores_order_of_distinct_times
    conversations searchQuery filters :
  let out := filterConversations conversations searchQuery filters in
  (forall c, In c out
             <-> In c conversations
                 /\ (truthy (trim searchQuery) = true -> matchesText searchQuery c)
                 /\ withinRange (dateRange filters) c)
  /\ Permutation out (filter (kept searchQuery filters) conversations)
  /\ StronglySorted notOlder out
  /\ ((forall conversations',
          Permutation conversations conversations' ->
          filterConversations conversations' searchQuery filters = out)
      <-> (forall a b, In a out -> In b out ->
                       updatedAt a = updatedAt b -> a = b)).
Proof.
  intros out. subst out.
  destruct (filterConversations_selects_and_sorts conversations searchQuery filters)
    as [Hin Hsorted].
  split; [exact Hin|].
  split; [rewrite filterConversations_eq; apply sort_perm|].
  split; [exact Hsorted|]. split.
  - intros Hall a b.
    now apply (order_independence_excludes_ties conversations searchQuery filters).
  - intros Hinj conversations' Hperm.
    symmetry. apply sorted_perm_unique.
    + rewrite !filterConversations_eq, !sort_perm. now apply filter_perm.
    + exact Hsorted.
    + apply filterConversations_selects_and_sorts.
    + exact Hinj.
Qed.

(** The query "rEpOrT" up to time 7000, on two orders of a directory in
    which two conversations that the filter drops share their update
    time. *)
Lemma filter_selects_sorts_and_ignores_order_of_distinct_times_witness :
  filterConversations Ties.mixed "rEpOrT" Ties.upTo7000
  = [Directory.reporting; Directory.report]
  /\ filterConversations Ties.shuffled "rEpOrT" Ties.upTo7000
     = [Directory.reporting; Directory.report].
Proof.
  destruct (filter_selects_sorts_and_ignores_order_of_distinct_times
              Ties.mixed "rEpOrT" Ties.upTo7000)
    as (_ & _ & _ & _ & Hsame).
  split; [reflexivity|].
  apply Hsame.
  - intros a b Ha Hb Hab.
    change (In a [Directory.reporting; Directory.report]) in Ha.
    change (In b [Directory.reporting; Directory.report]) in Hb.
    destruct Ha as [<-|[<-|[]]], Hb as [<-|[<-|[]]];
      try reflexivity; discriminate Hab.
  - unfold Ties.mixed, Ties.shuffled.
    apply (Permutation_cons_app
             [Directory.beta; Directory.reporting; Directory.alpha]
             [Directory.recipe]).
    apply (Permutation_cons_app
             [Directory.beta; Directory.reporting] [Directory.recipe]).
    apply (Permutation_cons_app
             [Directory.beta; Directory.reporting] []).
    apply Permutation_refl.
Defined.

(** *** Grouping *)

Lemma groupOf_cases tz now c :
  (groupOf tz now c = "Today"
   /\ inToday tz now c = true /\ inYesterday tz now c = false
   /\ inThisWeek tz now c = false /\ inOlder tz now c = false)
  \/ (groupOf tz now c = "Yesterday"
      /\ inToday tz now c = false /\ inYesterday tz now c = true
      /\ inThisWeek tz now c = false /\ inOlder tz now c = false)
  \/ (groupOf tz now c = "This Week"
      /\ inToday tz now c = false /\ inYesterday tz now c = false
      /\ inThisWeek tz now c = true /\ inOlder tz now c = false)
  \/ (groupOf tz now c = "Older"
      /\ inToday tz now c = false /\ inYesterday tz now c = false
      /\ inThisWeek tz now c = false /\ inOlder tz now c = true).
Proof.
  unfold inYesterday, inThisWeek, inOlder.
  unfold groupOf, inToday, sameLocalDay.
  change (24 * 60 * 60 * 1000)%Z with msPerDay.
  change (7 * 24 * 60 * 60 * 1000)%Z with (7 * msPerDay)%Z.
  destruct (toDateString tz (updatedAt c) =? toDateString tz now)%Z;
    [left; repeat split|right].
  destruct (toDateString tz (updatedAt c) =? toDateString tz (now - msPerDay))%Z;
    [left; repeat split|right].
  cbn [negb andb].
  destruct (Z.ltb_spec (now - 7 * msPerDay) (updatedAt c)) as [Hlt|Hge];
    [left|right]; repeat split.
  - apply Z.leb_gt. exact Hlt.
  - apply Z.leb_le. exact Hge.
Qed.

(** Case analysis on the bucket of [c], with the key and the four tests
    rewritten to their values. *)
Ltac by_bucket tz now c :=
  let Hg := fresh "Hg" in
  let Ht := fresh "Ht" in
  let Hy := fresh "Hy" in
  let Hw := fresh "Hw" in
  let Ho := fresh "Ho" in
  destruct (groupOf_cases tz now c)
    as [(Hg & Ht & Hy & Hw & Ho) | [(Hg & Ht & Hy & Hw & Ho)
       | [(Hg & Ht & Hy & Hw & Ho) | (Hg & Ht & Hy & Hw & Ho)]]];
  rewrite ?Hg, Ht, Hy, Hw, Ho.

Lemma fold_groups tz now (l : list Conversation) : forall a b c d,
  fold_left (fun groups conv => push (groupOf tz now conv) conv groups) l
    [("Today", a); ("Yesterday", b); ("This Week", c); ("Older", d)]
  = [ ("Today", a ++ filter (inToday tz now) l);
      ("Yesterday", b ++ filter (inYesterday tz now) l);
      ("This Week", c ++ filter (inThisWeek tz now) l);
      ("Older", d ++ filter (inOlder tz now) l) ].
Proof.
  induction l as [|x l IH]; intros a b c d; simpl.
  - now rewrite !app_nil_r.
  - by_bucket tz now x; simpl; rewrite IH, <- app_assoc; reflexivity.
Qed.

(** The value of [conversationGroups], bucket by bucket. *)
Lemma conversationGroups_eq tz now l :
  conversationGroups tz now l
  = filter nonEmpty
      [ ("Today", filter (inToday tz now) l);
        ("Yesterday", filter (inYesterday tz now) l);
        ("This Week", filter (inThisWeek tz now) l);
        ("Older", filter (inOlder tz now) l) ].
Proof.
  unfold conversationGroups, emptyGroups. rewrite fold_groups. reflexivity.
Qed.

(** Every conversation passes the test of exactly one bucket. *)
Lemma exactly_one_bucket tz now c :
  List.length
    (filter (fun b : bool => b)
       [inToday tz now c; inYesterday tz now c;
        inThisWeek tz now c; inOlder tz now c]) = 1%nat.
Proof. by_bucket tz now c; reflexivity. Qed.

(** Whole days back are whole calendar days back. *)
Lemma toDateString_days_back tz t k :
  toDateString tz (t - k * (24 * Directory.hour))
  = (toDateString tz t - k)%Z.
Proof.
  unfold toDateString, Directory.hour, msPerDay.
  Z.div_mod_to_equations. lia.
Qed.

(** Twenty-five hours back is the previous calendar day from one o'clock
    on, and the day before that earlier in the day. *)
Lemma toDateString_25h_back tz t :
  toDateString tz (t - 25 * Directory.hour)
  = if (Directory.hour <=? (t + tz) mod msPerDay)%Z
    then (toDateString tz t - 1)%Z else (toDateString tz t - 2)%Z.
Proof.
  destruct (Z.leb_spec Directory.hour ((t + tz) mod msPerDay));
    unfold toDateString, Directory.hour, msPerDay in *;
    Z.div_mod_to_equations; lia.
Qed.

Lemma groupOf_scenario tz T0 :
  (Directory.hour <= (T0 + tz) mod msPerDay)%Z ->
  map (groupOf tz T0) (Directory.scenario T0)
  = ["Today"; "Yesterday"; "This Week"; "Older"].
Proof.
  intros Hclock.
  pose proof (toDateString_days_back tz T0 1) as Hday1.
  pose proof (toDateString_days_back tz T0 3) as Hday3.
  pose proof (toDateString_days_back tz T0 40) as Hday40.
  pose proof (toDateString_25h_back tz T0) as H25.
  apply Z.leb_le in Hclock. rewrite Hclock in H25.
  unfold Directory.scenario, groupOf, Directory.conv.
  cbn [map updatedAt].
  replace (T0 - 24 * 60 * 60 * 1000)%Z with (T0 - 1 * (24 * Directory.hour))%Z
    by (unfold Directory.hour; lia).
  replace (T0 - 3 * 24 * Directory.hour)%Z with (T0 - 3 * (24 * Directory.hour))%Z
    by lia.
  replace (T0 - 40 * 24 * Directory.hour)%Z with (T0 - 40 * (24 * Directory.hour))%Z
    by lia.
  rewrite Hday1, Hday3, Hday40, H25, Z.eqb_refl.
  repeat match goal with
         | |- context [(?a =? ?b)%Z] =>
             destruct (Z.eqb_spec a b); [lia|]
         end.
  rewrite Z.eqb_refl.
  repeat match goal with
         | |- context [(?a <? ?b)%Z] =>
             destruct (Z.ltb_spec a b); unfold Directory.hour in *; try lia
         end.
  reflexivity.
Qed.

(** C5, as stated, fails: at half past midnight, the conversation updated
    25 hours earlier belongs to the day before yesterday; it joins the
    3-day-old one under This Week, and no Yesterday bucket comes out. *)
Lemma grouping_25h_before_half_past_midnight :
  conversationGroups 0 Directory.halfPastMidnight
    (Directory.scenario Directory.halfPastMidnight)
  = [ ("Today", [Directory.conv "t" "now" 8641800000]);
      ("This Week", [Directory.conv "y" "25 hours ago" 8551800000;
                     Directory.conv "w" "3 days ago" 8382600000]);
      ("Older", [Directory.conv "o" "40 days ago" 5185800000]) ].
Proof. reflexivity. Qed.

(** C5, amended.  Grouping splits the list into the buckets Today (same
    local calendar day as now), Yesterday (not Today, same local calendar
    day as the instant 24 hours before now), This Week (neither, and
    updated later than 7 times 24 hours before now, an instant
    comparison) and Older (the rest), in this order, each conversation in
    exactly one bucket and in list order within it, empty buckets left
    out.  For conversations updated at T0 (now), 25 hours, 3 days and 40
    days earlier, each bucket receives exactly one entry when the local
    time of day of T0 is one o'clock or later. *)
Theorem grouping_buckets_and_scenario tz T0 :
  (Directory.hour <= (T0 + tz) mod msPerDay)%Z ->
  (forall now l,
      conversationGroups tz now l
      = filter nonEmpty
          [ ("Today", filter (inToday tz now) l);
            ("Yesterday", filter (inYesterday tz now) l);
            ("This Week", filter (inThisWeek tz now) l);
            ("Older", filter (inOlder tz now) l) ])
  /\ (forall now c,
         List.length
           (filter (fun b : bool => b)
              [inToday tz now c; inYesterday tz now c;
               inThisWeek tz now c; inOlder tz now c]) = 1%nat)
  /\ conversationGroups tz T0 (Directory.scenario T0)
     = [ ("Today", [Directory.conv "t" "now" T0]);
         ("Yesterday",
          [Directory.conv "y" "25 hours ago" (T0 - 25 * Directory.hour)]);
         ("This Week",
          [Directory.conv "w" "3 days ago" (T0 - 3 * 24 * Directory.hour)]);
         ("Older",
          [Directory.conv "o" "40 days ago" (T0 - 40 * 24 * Directory.hour)]) ].
Proof.
  intros Hclock.
  split; [intros now l; apply conversationGroups_eq|].
  split; [intros now c; apply exactly_one_bucket|].
  pose proof (groupOf_scenario tz T0 Hclock) as Hg.
  unfold conversationGroups, Directory.scenario in *.
  simpl in Hg. injection Hg as H0 H1 H2 H3.
  simpl fold_left. rewrite H0, H1, H2, H3. reflexivity.
Qed.

(** The scenario at noon. *)
Lemma grouping_buckets_and_scenario_witness :
  map (fun entry => (fst entry, map conv_id (snd entry)))
    (conversationGroups 0 Directory.noon (Directory.scenario Directory.noon))
  = [ ("Today", ["t"]); ("Yesterday", ["y"]);
      ("This Week", ["w"]); ("Older", ["o"]) ].
Proof.
  destruct (grouping_buckets_and_scenario 0 Directory.noon
              ltac:(vm_compute; discriminate))
    as (_ & _ & Hscenario).
  rewrite Hscenario. reflexivity.
Defined.

End ConversationSidebarFacts.

(** ** The message box and what reaches the transcript *)

Module ChatInputFacts.
Import Js Chat ChatInput.

Lemma trimStart_head (s : string) : forall c rest,
  trimStart s = String c rest -> isWhiteSpace c = false.
Proof.
  induction s as [|a s IH]; simpl; intros c rest H; [discriminate|].
  destruct (isWhiteSpace a) eqn:Ea; [now apply IH with rest|].
  now injection H as -> _.
Qed.

Lemma trimEnd_head (c : ascii) (rest : string) :
  isWhiteSpace c = false ->
  exists rest', trimEnd (String c rest) = String c rest'.
Proof.
  intros Hc. simpl. rewrite Hc.
  destruct (trimEnd rest); eexists; reflexivity.
Qed.

Lemma trimEnd_last (s : string) : forall init c,
  trimEnd s = (init ++ String c "")%string -> isWhiteSpace c = false.
Proof.
  induction s as [|a s IH]; simpl; intros init c H.
  - now destruct init.
  - destruct (trimEnd s) as [|b t] eqn:Et.
    + destruct (isWhiteSpace a) eqn:Ea.
      * now destruct init.
      * destruct init as [|i init]; simpl in H.
        -- now injection H as <-.
        -- injection H as _ H. now destruct init.
    + destruct init as [|i init]; simpl in H.
      * discriminate.
      * injection H as _ H. now apply IH with init.
Qed.

(** What [trim] returns neither starts nor ends with white space. *)
Lemma trim_is_trimmed (s : string) :
  (forall c rest, trim s = String c rest -> isWhiteSpace c = false)
  /\ (forall init c, trim s = (init ++ String c "")%string
                     -> isWhiteSpace c = false).
Proof.
  unfold trim. split.
  - intros c rest H.
    destruct (trimStart s) as [|a r] eqn:Es; [discriminate|].
    pose proof (trimStart_head s a r Es) as Ha.
    destruct (trimEnd_head a r Ha) as (rest' & Ht).
    rewrite Ht in H. now injection H as <- _.
  - intros init c. apply trimEnd_last.
Qed.

(** The user message of an accepted send is not empty and carries no
    leading or trailing white space. *)
Lemma accepted_send_stores_trimmed_nonempty env snap content now st :
  truthy (trim content) = true ->
  ChatInterface.isLoading snap = false ->
  ChatInterface.isStreaming snap = false ->
  exists m,
    ChatInterface.messages
      (ChatInterface.task_state
         (ChatInterface.handleSendMessage env snap content now st))
    = ChatInterface.messages st ++ [m]
    /\ role m = user
    /\ Chat.content m <> ""
    /\ (forall c rest, Chat.content m = String c rest -> isWhiteSpace c = false)
    /\ (forall init c, Chat.content m = (init ++ String c "")%string
                       -> isWhiteSpace c = false).
Proof.
  intros Hc Hl Hs.
  destruct (ChatInterfaceFacts.handleSendMessage_accepted
              env snap content now st Hc Hl Hs) as [_ Hm].
  eexists. split; [exact Hm|]. simpl. split; [reflexivity|].
  split; [now destruct (trim content)|]. apply trim_is_trimmed.
Qed.

(** C10 (the code departs from it).  The user types 1000 characters, the
    limit of the field, ending in the word "e"; the suggestions open on
    "Summarize the main points from"; Tab replaces the last word by that
    suggestion, which makes the field 1030 characters long; Enter submits
    the trimmed field, and the chat interface appends a user message of
    1029 characters. *)
Theorem completed_suggestion_exceeds_field_limit :
  String.length Typing.typed = maxLength
  /\ showSuggestions Typing.afterTyping = true
  /\ selected Typing.afterTyping
     = Some {| text := "Summarize the main points from"; stype := command |}
  /\ String.length (message Typing.afterTab) = 1030%nat
  /\ showSuggestions Typing.afterTab = false
  /\ (exists content,
         snd Typing.afterEnter = Some (content, None)
         /\ String.length content = 1029%nat)
  /\ map (fun m => (role m, String.length (Chat.content m)))
       Typing.transcriptAfterEnter
     = [ (user, 1029%nat) ].
Proof.
  split; [vm_compute; reflexivity|].
  split; [vm_compute; reflexivity|].
  split; [vm_compute; reflexivity|].
  split; [vm_compute; reflexivity|].
  split; [vm_compute; reflexivity|].
  split; [|vm_compute; reflexivity].
  eexists. split; vm_compute; reflexivity.
Qed.

End ChatInputFacts.

(** ** Whole exchanges of the chat interface *)

Module ChatInterfaceExchanges.
Import Js Chat ChatInterface ChatInterfaceRequests.

(** With streaming switched off and a conversation active, a send whose
    request succeeds leaves the transcript longer by the question (trimmed)
    and the answer (the response text with the response's sources, tagged
    with the conversation), in this order, and the component idle; the
    request carries the content as submitted. *)
Theorem regular_exchange_appends_question_then_answer
    env snap content now st cid resp now' :
  streamingEnabled env = false ->
  truthy (trim content) = true ->
  isLoading snap = false ->
  isStreaming snap = false ->
  conversationId snap = Some cid ->
  truthy cid = true ->
  let t := handleSendMessage env snap content now st in
  let t' := messageSent t (fulfilled resp) now' (task_state t) in
  awaitedRequest t
    = Some {| req_message := content; req_conversation_id := cid |}
  /\ awaitsNetwork t' = false
  /\ messages (task_state t')
     = messages st ++
       [ {| id := toString now; content := trim content; role := user;
            timestamp := now; sources := None;
            Chat.conversationId := Some cid |};
         {| id := toString now'; content := response resp; role := assistant;
            timestamp := now'; sources := Some (resp_sources resp);
            Chat.conversationId := Some cid |} ]
  /\ isLoading (task_state t') = false
  /\ error (task_state t') = None.
Proof.
  intros Henv Hc Hl Hs Hid Hcid. simpl.
  unfold handleSendMessage. rewrite Hc, Hl, Hs, Hid, Hcid, Henv. simpl.
  rewrite ChatInterfaceFacts.messages_abortOngoing, <- app_assoc.
  repeat split.
Qed.

(** A question asked in the loaded conversation "c9", answered at once. *)
Lemma regular_exchange_appends_question_then_answer_witness :
  let env := {| NEXT_PUBLIC_ENABLE_STREAMING := None |} in
  let st := initialState (Some "c9") in
  let resp := {| response := "Chapter 2 is about Y.";
                 resp_sources := [Session.src1];
                 resp_conversation_id := "c9" |} in
  let t := handleSendMessage env st "  And chapter 2? " 3000 st in
  map (fun m => (role m, content m))
    (messages (task_state (messageSent t (fulfilled resp) 3005 (task_state t))))
  = [ (user, "And chapter 2?"); (assistant, "Chapter 2 is about Y.") ]
  /\ awaitedRequest t
     = Some {| req_message := "  And chapter 2? "; req_conversation_id := "c9" |}.
Proof.
  intros env st resp t.
  destruct (regular_exchange_appends_question_then_answer
              env st "  And chapter 2? " 3000 st "c9" resp 3005
              eq_refl eq_refl eq_refl eq_refl eq_refl eq_refl)
    as (Hreq & _ & Hm & _).
  split; [|exact Hreq].
  fold t in Hm. rewrite Hm. reflexivity.
Defined.

(** On the first send of a conversation-less session, once the backend
    has answered the new conversation's id, the question goes out under
    that id, whether streaming is on or off, and the id is the active
    conversation of the store. *)
Theorem first_send_asks_under_new_conversation
    env snap content now st conversation_id now' st' :
  truthy (trim content) = true ->
  isLoading snap = false ->
  isStreaming snap = false ->
  truthy_opt (conversationId snap) = false ->
  let t := handleSendMessage env snap content now st in
  let t' := conversationCreated t (fulfilled conversation_id) now' st' in
  awaitedRequest t'
    = Some {| req_message := content; req_conversation_id := conversation_id |}
  /\ conversationId (task_state t') = Some conversation_id
  /\ messages (task_state t') = messages st'
  /\ (awaitedStream t' <> None <-> streamingEnabled env = true).
Proof.
  intros Hc Hl Hs Hid. simpl.
  unfold handleSendMessage. rewrite Hc, Hl, Hs. simpl.
  assert (Hcase : conversationId snap = None
                  \/ exists c, conversationId snap = Some c /\ truthy c = false).
  { destruct (conversationId snap) as [c|]; [right; now exists c | now left]. }
  destruct Hcase as [Hnone | (c & Hsome & Hfalsy)];
    [rewrite Hnone | rewrite Hsome, Hfalsy]; simpl;
    unfold handleStreamingResponse, handleRegularResponse;
    destruct (streamingEnabled env); simpl;
    repeat split; try discriminate; try reflexivity; intros H; now contradiction H.
Qed.

Lemma first_send_asks_under_new_conversation_witness :
  awaitedRequest Session.created
  = Some {| req_message := "Summarize chapter 1"; req_conversation_id := "c1" |}
  /\ conversationId (task_state Session.created) = Some "c1".
Proof.
  destruct (first_send_asks_under_new_conversation
              Session.env Session.fresh "Summarize chapter 1" 1000 Session.fresh
              "c1" 1010 (task_state Session.sent)
              eq_refl eq_refl eq_refl eq_refl)
    as (Hreq & Hid & _).
  split; [exact Hreq | exact Hid].
Defined.

(** Where an accepted send suspends when streaming is on and a
    conversation is active. *)
Lemma streaming_send_suspends env snap content now st cid :
  streamingEnabled env = true ->
  truthy (trim content) = true ->
  isLoading snap = false ->
  isStreaming snap = false ->
  conversationId snap = Some cid ->
  truthy cid = true ->
  exists st0 k,
    handleSendMessage env snap content now st
    = AwaitStreamingChat st0
        {| req_message := content; req_conversation_id := cid |}
        {| captured_streamingMessage := streamingMessage snap; convId := cid |}
        [] k
    /\ (forall r now' st',
           k r now' st' = match r with
                          | fulfilled _ => try_done st'
                          | rejected e => try_threw e now' st'
                          end)
    /\ streamingMessage st0 = ""
    /\ isStreaming st0 = true
    /\ isLoading st0 = true
    /\ error st0 = None
    /\ List.length (messages st0) = S (List.length (messages st)).
Proof.
  intros Henv Hc Hl Hs Hid Hcid.
  unfold handleSendMessage. rewrite Hc, Hl, Hs, Hid, Hcid, Henv. simpl.
  unfold handleStreamingResponse. eexists. eexists.
  split; [reflexivity|]. split; [reflexivity|]. simpl.
  rewrite ChatInterfaceFacts.messages_abortOngoing, length_app. simpl.
  repeat split. lia.
Qed.

(** While a stream is in flight the fragments pile up, in arrival order,
    in the live partial text, which starts empty; the citations pile up in
    the stream's array; the transcript does not move. *)
Theorem stream_fragments_accumulate_in_partial_text
    env snap content now st cid events :
  streamingEnabled env = true ->
  truthy (trim content) = true ->
  isLoading snap = false ->
  isStreaming snap = false ->
  conversationId snap = Some cid ->
  truthy cid = true ->
  inFlight events = true ->
  let t := handleSendMessage env snap content now st in
  exists request cl st',
    awaitedStream t = Some (request, cl, [])
    /\ deliver cl events [] (task_state t)
       = Normal (streamedCitations events, st')
    /\ streamingMessage st' = streamedText events
    /\ messages st' = messages (task_state t)
    /\ isStreaming st' = true.
Proof.
  intros Henv Hc Hl Hs Hid Hcid Hfl t. subst t.
  destruct (streaming_send_suspends env snap content now st cid
              Henv Hc Hl Hs Hid Hcid)
    as (st0 & k & -> & _ & Hsm & Hst & _).
  destruct (ChatInterfaceFacts.deliver_inFlight
              {| captured_streamingMessage := streamingMessage snap; convId := cid |}
              events [] st0 Hfl)
    as (st' & Hd & Hm & Htext & Hflag & _).
  eexists. eexists. exists st'. simpl.
  split; [reflexivity|]. split; [exact Hd|].
  rewrite Htext, Hsm, Hflag, Hst. auto.
Qed.

Lemma stream_fragments_accumulate_in_partial_text_witness :
  let st := initialState (Some "c1") in
  let t := handleSendMessage Session.env st "Summarize chapter 1" 1000 st in
  exists request cl st',
    awaitedStream t = Some (request, cl, [])
    /\ deliver cl (firstn 4 Session.chapter1) [] (task_state t)
       = Normal ([Session.src1; Session.src2], st')
    /\ streamingMessage st' = "Chapter 1 discusses X."
    /\ messages st' = messages (task_state t)
    /\ isStreaming st' = true.
Proof.
  exact (stream_fragments_accumulate_in_partial_text
           Session.env (initialState (Some "c1")) "Summarize chapter 1" 1000
           (initialState (Some "c1")) "c1" (firstn 4 Session.chapter1)
           eq_refl eq_refl eq_refl eq_refl eq_refl eq_refl eq_refl).
Defined.

(** A stream that reaches [done] and whose promise then fulfils leaves the
    component idle, with the partial text cleared and the transcript
    longer by the question and one assistant message that holds the
    citations in arrival order; the next non-blank send is accepted. *)
Theorem stream_completion_returns_to_idle
    env snap content now st cid pre nd response now' :
  streamingEnabled env = true ->
  truthy (trim content) = true ->
  isLoading snap = false ->
  isStreaming snap = false ->
  conversationId snap = Some cid ->
  truthy cid = true ->
  inFlight pre = true ->
  type response = type_done ->
  let t := handleSendMessage env snap content now st in
  exists request cl st1 answer,
    awaitedStream t = Some (request, cl, [])
    /\ deliver cl (pre ++ [(nd, response)]) [] (task_state t)
       = Normal (streamedCitations pre, st1)
    /\ let st2 := task_state (streamSettled t (fulfilled tt) now' st1) in
       messages st2 = messages (task_state t) ++ [answer]
       /\ role answer = assistant
       /\ sources answer = Some (streamedCitations pre)
       /\ isLoading st2 = false
       /\ isStreaming st2 = false
       /\ streamingMessage st2 = ""
       /\ error st2 = None
       /\ forall env' next now'',
            truthy (trim next) = true ->
            awaitsNetwork (handleSendMessage env' st2 next now'' st2) = true.
Proof.
  intros Henv Hc Hl Hs Hid Hcid Hfl Hty t. subst t.
  destruct (streaming_send_suspends env snap content now st cid
              Henv Hc Hl Hs Hid Hcid)
    as (st0 & k & -> & Hk & Hsm & Hst & Hld & Herr & _).
  set (cl := {| captured_streamingMessage := streamingMessage snap; convId := cid |}).
  destruct (ChatInterfaceFacts.deliver_inFlight cl pre [] st0 Hfl)
    as (stm & Hd & Hm & _ & _ & _ & He).
  eexists. exists cl. eexists. eexists. simpl.
  split; [reflexivity|].
  rewrite ChatInterfaceFacts.deliver_app, Hd. simpl.
  unfold handleStreamMessage. rewrite Hty.
  split; [reflexivity|]. rewrite Hk. simpl.
  rewrite Hm, He, Herr. repeat split.
  intros env' next now'' Hnext.
  now apply ChatInterfaceFacts.handleSendMessage_accepted.
Qed.

Lemma stream_completion_returns_to_idle_witness :
  let st := initialState (Some "c1") in
  let t := handleSendMessage Session.env st "Summarize chapter 1" 1000 st in
  exists request cl st1 answer,
    awaitedStream t = Some (request, cl, [])
    /\ deliver cl Session.chapter1 [] (task_state t)
       = Normal ([Session.src1; Session.src2], st1)
    /\ let st2 := task_state (streamSettled t (fulfilled tt) 1050 st1) in
       messages st2 = messages (task_state t) ++ [answer]
       /\ role answer = assistant
       /\ sources answer = Some [Session.src1; Session.src2]
       /\ isLoading st2 = false
       /\ isStreaming st2 = false
       /\ streamingMessage st2 = ""
       /\ error st2 = None
       /\ forall env' next now'',
            truthy (trim next) = true ->
            awaitsNetwork (handleSendMessage env' st2 next now'' st2) = true.
Proof.
  exact (stream_completion_returns_to_idle
           Session.env (initialState (Some "c1")) "Summarize chapter 1" 1000
           (initialState (Some "c1")) "c1" (firstn 4 Session.chapter1)
           1040 Session.ev_done 1050
           eq_refl eq_refl eq_refl eq_refl eq_refl eq_refl eq_refl eq_refl).
Defined.

(** When the promise of the stream is rejected while the stream is in
    flight, the banner is set and the loading flag cleared, but nothing
    clears the streaming flag: in the render of that store every further
    send returns at once, whatever its content. *)
Theorem rejected_stream_leaves_streaming_flag_set
    env snap content now st cid e now' st' :
  streamingEnabled env = true ->
  truthy (trim content) = true ->
  isLoading snap = false ->
  isStreaming snap = false ->
  conversationId snap = Some cid ->
  truthy cid = true ->
  isStreaming st' = true ->
  let t := handleSendMessage env snap content now st in
  let stuck := task_state (streamSettled t (rejected e) now' st') in
  isStreaming stuck = true
  /\ isLoading stuck = false
  /\ error stuck = Some (sendBanner e)
  /\ forall env' next now'',
       handleSendMessage env' stuck next now'' stuck = Returned stuck.
Proof.
  intros Henv Hc Hl Hs Hid Hcid Hflag t. subst t.
  destruct (streaming_send_suspends env snap content now st cid
              Henv Hc Hl Hs Hid Hcid)
    as (st0 & k & -> & Hk & _).
  simpl. rewrite Hk. simpl. rewrite Hflag. repeat split.
  intros env' next now''.
  apply ChatInterfaceFacts.handleSendMessage_rejected. simpl.
  rewrite Hflag. apply orb_true_r.
Qed.

Lemma rejected_stream_leaves_streaming_flag_set_witness :
  let st := initialState (Some "c1") in
  let t := handleSendMessage Session.env st "Summarize chapter 1" 1000 st in
  let stuck :=
    task_state (streamSettled t (rejected (newError "socket closed")) 1050
                  (task_state t)) in
  isStreaming stuck = true
  /\ isLoading stuck = false
  /\ error stuck = Some "Failed to send message"
  /\ forall env' next now'',
       handleSendMessage env' stuck next now'' stuck = Returned stuck.
Proof.
  exact (rejected_stream_leaves_streaming_flag_set
           Session.env (initialState (Some "c1")) "Summarize chapter 1" 1000
           (initialState (Some "c1")) "c1" (newError "socket closed") 1050
           (task_state (handleSendMessage Session.env (initialState (Some "c1"))
                          "Summarize chapter 1" 1000 (initialState (Some "c1"))))
           eq_refl eq_refl eq_refl eq_refl eq_refl eq_refl eq_refl).
Defined.

(** Whichever network call of an accepted send is rejected (creating the
    conversation, or asking the question once the conversation exists),
    the send ends there: the banner shows the message of an [ApiError] and
    "Failed to send message" for any other error, the loading flag is
    cleared, and the transcript is what it was when the rejection came. *)
Theorem rejected_call_sets_banner_and_ends_send
    env snap content now st e now' st' conversation_id now1 st1 :
  truthy (trim content) = true ->
  isLoading snap = false ->
  isStreaming snap = false ->
  let t := handleSendMessage env snap content now st in
  let asked := conversationCreated t (fulfilled conversation_id) now1 st1 in
  (forall t', t' = rejectedWith t e now' st'
              \/ t' = rejectedWith asked e now' st' ->
     awaitsNetwork t' = false
     /\ error (task_state t') = Some (sendBanner e)
     /\ isLoading (task_state t') = false
     /\ messages (task_state t') = messages st').
Proof.
  intros Hc Hl Hs t asked t' Ht'.
  assert (Hdone : forall u, u = try_threw e now' st' ->
                    awaitsNetwork u = false
                    /\ error (task_state u) = Some (sendBanner e)
                    /\ isLoading (task_state u) = false
                    /\ messages (task_state u) = messages st')
    by (intros u ->; repeat split).
  apply Hdone. subst t asked.
  unfold handleSendMessage in Ht'. rewrite Hc, Hl, Hs in Ht'. simpl in Ht'.
  destruct (conversationId snap) as [c|]; [destruct (truthy c)|];
    unfold handleStreamingResponse, handleRegularResponse in Ht';
    destruct (streamingEnabled env); simpl in Ht';
    destruct Ht' as [->| ->]; reflexivity.
Qed.

Lemma rejected_call_sets_banner_and_ends_send_witness :
  let e := {| isApiError := true; message := "Rate limit exceeded" |} in
  let t' := rejectedWith Session.sent e 1005 (task_state Session.sent) in
  awaitsNetwork t' = false
  /\ error (task_state t') = Some "Rate limit exceeded"
  /\ isLoading (task_state t') = false
  /\ map content (messages (task_state t')) = ["Summarize chapter 1"].
Proof.
  intros e t'.
  destruct (rejected_call_sets_banner_and_ends_send
              Session.env Session.fresh "Summarize chapter 1" 1000 Session.fresh
              e 1005 (task_state Session.sent) "c1" 1010 (task_state Session.sent)
              eq_refl eq_refl eq_refl t' (or_introl eq_refl))
    as (Ha & Hb & Hl & Hm).
  split; [exact Ha|]. split; [exact Hb|]. split; [exact Hl|].
  rewrite Hm. reflexivity.
Defined.

(** The title of a new conversation is never longer than 50 characters:
    a content of more than 50 characters gives a title of exactly 50, its
    last three being the dots. *)
Theorem conversationTitle_is_bounded (content : string) :
  (String.length (conversationTitle content) <= 50)%nat
  /\ ((50 < String.length content)%nat ->
      String.length (conversationTitle content) = 50%nat
      /\ Js.substring 47 50 (conversationTitle content) = "...").
Proof.
  assert (Happ : forall a b : string,
             String.length (a ++ b) = (String.length a + String.length b)%nat)
    by (induction a; simpl; intros; [reflexivity | now rewrite IHa]).
  assert (Hsub : forall (n : nat) (a b : string),
             String.length a = n ->
             String.substring n (String.length b) (a ++ b) = b).
  { induction n as [|n IH]; intros a b Ha.
    - destruct a; [|discriminate]. simpl.
      induction b as [|c b IHb]; simpl; [reflexivity | now rewrite IHb].
    - destruct a as [|c a]; [discriminate|]. simpl. apply IH.
      now injection Ha. }
  unfold conversationTitle.
  destruct (Nat.ltb_spec 50 (String.length content)) as [Hlong|Hshort].
  - destruct (ChatInterfaceFacts.substring_firstn 47 content) as (rest & _ & Hlen);
      [lia|].
    change (Js.substring 0 47 content) with (String.substring 0 47 content).
    rewrite Happ, Hlen. split; [simpl; lia|]. intros _. split; [reflexivity|].
    change (Js.substring 47 50) with (String.substring 47 (String.length "...")).
    now apply Hsub.
  - split; [exact Hshort | lia].
Qed.

(** A content of sixty letters. *)
Lemma conversationTitle_is_bounded_witness :
  String.length (conversationTitle (Typing.repeatChar "x" 60)) = 50%nat
  /\ Js.substring 47 50 (conversationTitle (Typing.repeatChar "x" 60)) = "...".
Proof.
  destruct (conversationTitle_is_bounded (Typing.repeatChar "x" 60)) as [_ H].
  apply H. simpl. lia.
Defined.

End ChatInterfaceExchanges.

(** ** More on the conversation directory *)

Module ConversationSidebarMore.
Import Js Chat ConversationSidebar ConversationSidebarLoading.
Import ConversationSidebarFacts.

(** *** Deleting *)



(** A deletion that the user declines, or that the backend rejects,
    removes nothing and leaves the chat session alone; the rejection shows
    in the sidebar's banner, with the message of an [ApiError] and
    "Failed to delete conversation" for any other error. *)
Theorem declined_or_failed_delete_removes_nothing
    props conversationId st (chat : ChatInterface.State) r e :
  handleDeleteConversation props conversationId false r (st, chat) = (st, chat)
  /\ let w := handleDeleteConversation props conversationId true (rejected e)
                (st, chat) in
     conversations (fst w) = conversations st
     /\ snd w = chat
     /\ error (fst w)
        = Some (if isApiError e then message e
                else "Failed to delete conversation").
Proof. repeat split. Qed.

(** *** Filtering *)

Lemma filter_all {A : Type} (f : A -> bool) (l : list A) :
  (forall x, In x l -> f x = true) -> filter f l = l.
Proof.
  induction l as [|x l IH]; simpl; intros H; [reflexivity|].
  rewrite (H x (or_introl eq_refl)), IH; [reflexivity|].
  intros y Hy. apply H. now right.
Qed.

Lemma filter_none {A : Type} (f : A -> bool) (l : list A) :
  (forall x, In x l -> f x = false) -> filter f l = [].
Proof.
  induction l as [|x l IH]; simpl; intros H; [reflexivity|].
  rewrite (H x (or_introl eq_refl)). apply IH.
  intros y Hy. apply H. now right.
Qed.

Lemma notOlder_compare (l : list Conversation) :
  StronglySorted notOlder l ->
  StronglySorted (fun a b => (mostRecentFirst a b <= 0)%Z) l.
Proof.
  induction 1 as [|x l _ IH Hx]; constructor; [exact IH|].
  eapply Forall_impl; [|exact Hx].
  unfold notOlder, mostRecentFirst. intros y Hy. lia.
Qed.

(** Filtering what the filter returned, with the same query and range,
    changes nothing. *)
Theorem filterConversations_idempotent conversations searchQuery filters :
  filterConversations
    (filterConversations conversations searchQuery filters) searchQuery filters
  = filterConversations conversations searchQuery filters.
Proof.
  rewrite (filterConversations_eq (filterConversations _ _ _)).
  rewrite filter_all.
  - apply sort_sorted_id, notOlder_compare.
    apply filterConversations_selects_and_sorts.
  - intros c Hc. rewrite filterConversations_eq in Hc.
    eapply Permutation_in in Hc; [|apply sort_perm].
    now apply filter_In in Hc.
Qed.

(** With a query that is blank after trimming and no date range the
    filter drops nothing: it returns a rearrangement of the list, and the
    list itself when that is most recent first already. *)
Theorem blank_filter_only_sorts conversations searchQuery filters :
  truthy (trim searchQuery) = false ->
  dateRange filters = None ->
  let out := filterConversations conversations searchQuery filters in
  Permutation out conversations
  /\ List.length out = List.length conversations
  /\ (StronglySorted notOlder conversations -> out = conversations).
Proof.
  intros Hq Hr out. subst out. unfold filterConversations. rewrite Hq, Hr.
  split; [apply sort_perm|]. split.
  - apply Permutation_length, sort_perm.
  - intros Hs. now apply sort_sorted_id, notOlder_compare.
Qed.

Lemma blank_filter_only_sorts_witness :
  let out :=
    filterConversations
      [Directory.report; Directory.recipe; Directory.reporting] "  "
      Directory.noFilters in
  Permutation out [Directory.report; Directory.recipe; Directory.reporting]
  /\ List.length out = 3%nat
  /\ filterConversations
       [Directory.recipe; Directory.reporting; Directory.report] "  "
       Directory.noFilters
     = [Directory.recipe; Directory.reporting; Directory.report].
Proof.
  destruct (blank_filter_only_sorts
              [Directory.report; Directory.recipe; Directory.reporting] "  "
              Directory.noFilters eq_refl eq_refl)
    as (Hperm & Hlen & _).
  destruct (blank_filter_only_sorts
              [Directory.recipe; Directory.reporting; Directory.report] "  "
              Directory.noFilters eq_refl eq_refl)
    as (_ & _ & Hsame).
  split; [exact Hperm|]. split; [exact Hlen|].
  apply Hsame. repeat constructor; unfold notOlder; simpl; lia.
Defined.

(** *** Grouping *)

Lemma concat_nonEmpty (groups : Groups) :
  List.concat (map snd (filter nonEmpty groups)) = List.concat (map snd groups).
Proof.
  induction groups as [|[k convs] groups IH]; simpl; [reflexivity|].
  unfold nonEmpty at 1. simpl.
  destruct convs as [|c convs]; simpl; [exact IH | now rewrite IH].
Qed.

Lemma concat_conversationGroups tz now l :
  List.concat (map snd (conversationGroups tz now l))
  = filter (inToday tz now) l ++ filter (inYesterday tz now) l
    ++ filter (inThisWeek tz now) l ++ filter (inOlder tz now) l.
Proof.
  rewrite conversationGroups_eq, concat_nonEmpty. simpl.
  now rewrite app_nil_r.
Qed.

Lemma buckets_perm tz now (l : list Conversation) :
  Permutation
    (filter (inToday tz now) l ++ filter (inYesterday tz now) l
     ++ filter (inThisWeek tz now) l ++ filter (inOlder tz now) l) l.
Proof.
  induction l as [|x l IH]; simpl; [constructor|].
  symmetry. symmetry in IH. by_bucket tz now x.
  - simpl. now constructor.
  - now apply Permutation_cons_app.
  - rewrite app_assoc. apply Permutation_cons_app. now rewrite <- app_assoc.
  - rewrite 2!app_assoc. apply Permutation_cons_app.
    now rewrite <- 2!app_assoc.
Qed.

(** Grouping loses and repeats nothing: the buckets, put end to end, hold
    exactly the conversations of the list, and no bucket that comes out is
    empty. *)
Theorem grouping_keeps_every_conversation tz now l :
  Permutation (List.concat (map snd (conversationGroups tz now l))) l
  /\ List.length (List.concat (map snd (conversationGroups tz now l)))
     = List.length l
  /\ Forall (fun entry => snd entry <> []) (conversationGroups tz now l).
Proof.
  assert (Hperm : Permutation (List.concat (map snd (conversationGroups tz now l))) l)
    by (rewrite concat_conversationGroups; apply buckets_perm).
  split; [exact Hperm|]. split; [now apply Permutation_length|].
  rewrite conversationGroups_eq. apply Forall_forall.
  intros [k convs] Hin. apply filter_In in Hin as [_ Hne].
  unfold nonEmpty in Hne. simpl in *. now destruct convs.
Qed.

(** The calendar day of an instant does not decrease with the instant,
    and 24 hours back is one calendar day back. *)
Lemma toDateString_mono tz a b :
  (a <= b)%Z -> (toDateString tz a <= toDateString tz b)%Z.
Proof.
  intros H. unfold toDateString, msPerDay.
  apply Z.div_le_mono; lia.
Qed.

Lemma toDateString_day_back tz t :
  toDateString tz (t - msPerDay) = (toDateString tz t - 1)%Z.
Proof. unfold toDateString, msPerDay. Z.div_mod_to_equations. lia. Qed.

(** Of two conversations that are not in the future, the more recent one
    never falls into a later bucket. *)
Lemma bucket_order tz now a b :
  (updatedAt b <= updatedAt a)%Z ->
  (updatedAt a <= now)%Z ->
  (inToday tz now a = false -> inToday tz now b = false)
  /\ (inToday tz now a = false -> inYesterday tz now a = false ->
      inYesterday tz now b = false)
  /\ (inOlder tz now a = true -> inThisWeek tz now b = false).
Proof.
  intros Hba Han.
  pose proof (toDateString_mono tz _ _ Hba) as Hd1.
  pose proof (toDateString_mono tz _ _ Han) as Hd2.
  pose proof (toDateString_day_back tz now) as Hd3.
  unfold inYesterday, inThisWeek, inOlder. unfold inToday, sameLocalDay.
  rewrite Hd3.
  repeat match goal with
         | |- context [(?x =? ?y)%Z] => destruct (Z.eqb_spec x y)
         | |- context [(?x <? ?y)%Z] => destruct (Z.ltb_spec x y)
         | |- context [(?x <=? ?y)%Z] => destruct (Z.leb_spec x y)
         end; simpl; repeat split; intros; try reflexivity; try discriminate; lia.
Qed.

(** On a list that is most recent first and holds no conversation of the
    future, grouping keeps the order: the buckets, put end to end, are the
    list. *)
Theorem grouping_keeps_order_of_sorted_list tz now l :
  StronglySorted notOlder l ->
  Forall (fun c => (updatedAt c <= now)%Z) l ->
  List.concat (map snd (conversationGroups tz now l)) = l.
Proof.
  intros Hsorted Hpast. rewrite concat_conversationGroups.
  induction Hsorted as [|x l Hl IH Hx]; [reflexivity|].
  apply Forall_cons_iff in Hpast as [Hxnow Hpast].
  specialize (IH Hpast).
  assert (Hord : forall y, In y l ->
             (inToday tz now x = false -> inToday tz now y = false)
             /\ (inToday tz now x = false -> inYesterday tz now x = false ->
                 inYesterday tz now y = false)
             /\ (inOlder tz now x = true -> inThisWeek tz now y = false)).
  { intros y Hy. apply bucket_order; [|exact Hxnow].
    rewrite Forall_forall in Hx. exact (Hx y Hy). }
  simpl.
  destruct (groupOf_cases tz now x)
    as [(_ & Ht & Hy & Hw & Ho) | [(_ & Ht & Hy & Hw & Ho)
       | [(_ & Ht & Hy & Hw & Ho) | (_ & Ht & Hy & Hw & Ho)]]];
    rewrite Ht, Hy, Hw, Ho.
  - simpl. now rewrite IH.
  - rewrite (filter_none (inToday tz now) l) in *
      by (intros y Hin; now apply (Hord y Hin)).
    simpl in *. now rewrite IH.
  - rewrite (filter_none (inToday tz now) l) in *
      by (intros y Hin; now apply (Hord y Hin)).
    rewrite (filter_none (inYesterday tz now) l) in *
      by (intros y Hin; now apply (Hord y Hin)).
    simpl in *. now rewrite IH.
  - rewrite (filter_none (inToday tz now) l) in *
      by (intros y Hin; now apply (Hord y Hin)).
    rewrite (filter_none (inYesterday tz now) l) in *
      by (intros y Hin; now apply (Hord y Hin)).
    rewrite (filter_none (inThisWeek tz now) l) in *
      by (intros y Hin; now apply (Hord y Hin)).
    simpl in *. now rewrite IH.
Qed.

Lemma grouping_keeps_order_of_sorted_list_witness :
  List.concat (map snd (conversationGroups 0 Directory.noon Pages.recent))
  = Pages.recent
  /\ map fst (conversationGroups 0 Directory.noon Pages.recent)
     = ["Today"; "Yesterday"; "This Week"; "Older"].
Proof.
  split; [|reflexivity].
  apply grouping_keeps_order_of_sorted_list.
  - repeat constructor; unfold notOlder; simpl; vm_compute; discriminate.
  - repeat constructor; simpl; vm_compute; discriminate.
Defined.

(** *** Loading pages *)

(** "Load more" sends the very request of the first load (the user and the
    limit 50, no page and no offset).  So when the backend answers both
    with one full page, the first load lists the page and reports that
    more may follow, and "load more" then lists every conversation of the
    page a second time, behind the first, and counts page 2. *)
Theorem load_more_asks_for_the_same_page_again props snap st response :
  isLoading snap = false ->
  List.length (resp_conversations response) = 50%nat ->
  let first := handleRefresh props snap st in
  let st1 := task_state (conversationsListed first (fulfilled response)
                           (task_state first)) in
  let more := handleLoadMore props st1 st1 in
  let st2 := task_state (conversationsListed more (fulfilled response)
                           (task_state more)) in
  awaitedArguments first = Some (userId props, 50%Z)
  /\ awaitedArguments more = awaitedArguments first
  /\ conversations st1 = resp_conversations response
  /\ (hasMore st1, page st1, isLoading st1) = (true, 1%Z, false)
  /\ conversations st2
     = resp_conversations response ++ resp_conversations response
  /\ (hasMore st2, page st2, isLoading st2, total st2)
     = (true, 2%Z, false, resp_total response).
Proof.
  intros Hidle Hfull. simpl.
  unfold handleRefresh, handleLoadMore, loadConversations.
  rewrite Hidle. simpl. rewrite Hfull. simpl. rewrite Hfull. simpl.
  repeat split.
Qed.

Lemma load_more_asks_for_the_same_page_again_witness :
  let first := handleRefresh Pages.props Pages.mounted Pages.mounted in
  let st1 := task_state (conversationsListed first (fulfilled Pages.fullResponse)
                           (task_state first)) in
  let more := handleLoadMore Pages.props st1 st1 in
  let st2 := task_state (conversationsListed more (fulfilled Pages.fullResponse)
                           (task_state more)) in
  awaitedArguments more = Some (Some "u1", 50%Z)
  /\ List.length (conversations st1) = 50%nat
  /\ List.length (conversations st2) = 100%nat
  /\ conversations st2 = Pages.fullPage ++ Pages.fullPage.
Proof.
  destruct (load_more_asks_for_the_same_page_again
              Pages.props Pages.mounted Pages.mounted Pages.fullResponse
              eq_refl eq_refl)
    as (Hfirst & Hmore & H1 & _ & H2 & _).
  cbv zeta. rewrite Hmore, Hfirst, H1, H2.
  repeat split.
Defined.

(** A load whose request the backend rejects keeps the directory as it
    is, shows the banner (the message of an [ApiError], "Failed to load
    conversations" otherwise) and clears the loading flag.  A load asked
    for while one is running, and a "load more" when no more is expected,
    issue no request and change nothing. *)
Theorem failed_or_refused_load_keeps_the_list props snap reset st e st' :
  isLoading snap = false ->
  (let t := conversationsListed (loadConversations props snap reset st)
              (rejected e) st' in
   awaitedArguments t = None
   /\ conversations (task_state t) = conversations st'
   /\ isLoading (task_state t) = false
   /\ error (task_state t)
      = Some (if isApiError e then message e
              else "Failed to load conversations"))
  /\ loadConversations props (setIsLoading true snap) reset st = Finished st
  /\ handleLoadMore props (setIsLoading true snap) st = Finished st
  /\ handleLoadMore props (setHasMore false snap) st = Finished st.
Proof.
  intros Hidle. unfold handleLoadMore, loadConversations. rewrite Hidle. simpl.
  rewrite andb_false_r. repeat split.
Qed.

Lemma failed_or_refused_load_keeps_the_list_witness :
  let listed := Directory.sidebar [Directory.recipe; Directory.report] in
  let t := conversationsListed
             (loadConversations Pages.props listed false listed)
             (rejected (newError "offline")) listed in
  conversations (task_state t) = [Directory.recipe; Directory.report]
  /\ error (task_state t) = Some "Failed to load conversations"
  /\ isLoading (task_state t) = false.
Proof.
  destruct (failed_or_refused_load_keeps_the_list
              Pages.props
              (Directory.sidebar [Directory.recipe; Directory.report]) false
              (Directory.sidebar [Directory.recipe; Directory.report])
              (newError "offline")
              (Directory.sidebar [Directory.recipe; Directory.report])
              eq_refl)
    as ((_ & Hc & Hl & He) & _).
  split; [exact Hc|]. split; [exact He | exact Hl].
Defined.

End ConversationSidebarMore.

(** ** More on the message box *)

Module ChatInputMore.
Import Js Chat ChatInput ChatInputEvents.

(** *** Trimming *)

Lemma trimEnd_idempotent (s : string) : trimEnd (trimEnd s) = trimEnd s.
Proof.
  induction s as [|a s IH]; simpl; [reflexivity|].
  destruct (trimEnd s) as [|b t] eqn:Et.
  - destruct (isWhiteSpace a) eqn:Ea; simpl; [reflexivity | now rewrite Ea].
  - change (trimEnd (String a (String b t))) with
      (match trimEnd (String b t) with
       | EmptyString => if isWhiteSpace a then EmptyString else String a EmptyString
       | u => String a u
       end).
    now rewrite IH.
Qed.

Lemma trim_idempotent (s : string) : trim (trim s) = trim s.
Proof.
  destruct (ChatInputFacts.trim_is_trimmed s) as [Hhead _].
  unfold trim at 1.
  replace (trimStart (trim s)) with (trim s).
  - unfold trim. apply trimEnd_idempotent.
  - destruct (trim s) as [|c rest] eqn:Et; [reflexivity|].
    simpl. now rewrite (Hhead c rest eq_refl).
Qed.

(** What the message box submits is what the chat interface stores: the
    content that [handleSubmit] passes on is trimmed and not empty, an
    idle chat interface accepts it and appends a user message with exactly
    that content, and the box is left empty, without attachments. *)
Theorem submitted_content_is_stored_verbatim
    props st st' content files env snap now chat :
  handleSubmit props st = (st', Some (content, files)) ->
  ChatInterface.isLoading snap = false ->
  ChatInterface.isStreaming snap = false ->
  content = trim (message st)
  /\ content <> ""
  /\ files <> Some []
  /\ (message st', attachedFiles st', showSuggestions st') = ("", [], false)
  /\ exists m,
       ChatInterface.messages
         (ChatInterface.task_state
            (ChatInterface.handleSendMessage env snap content now chat))
       = ChatInterface.messages chat ++ [m]
       /\ role m = user
       /\ Chat.content m = content.
Proof.
  intros Hsubmit Hl Hs. unfold handleSubmit in Hsubmit.
  destruct (truthy (trim (message st))) eqn:Hc; simpl in Hsubmit;
    [|discriminate].
  destruct (negb (isLoading props) && negb (disabled props)); simpl in Hsubmit;
    [|discriminate].
  injection Hsubmit as <- <- <-.
  split; [reflexivity|]. split; [now destruct (trim (message st))|].
  split; [now destruct (attachedFiles st)|]. split; [reflexivity|].
  assert (Hc' : truthy (trim (trim (message st))) = true)
    by now rewrite trim_idempotent.
  destruct (ChatInterfaceFacts.handleSendMessage_accepted
              env snap (trim (message st)) now chat Hc' Hl Hs) as [_ Hm].
  eexists. split; [exact Hm|]. split; [reflexivity|]. simpl.
  apply trim_idempotent.
Qed.

Lemma submitted_content_is_stored_verbatim_witness :
  let st := handleInputChange "  hello there " initialState in
  exists m,
    ChatInterface.messages
      (ChatInterface.task_state
         (ChatInterface.handleSendMessage Session.env Session.fresh
            "hello there" 10 Session.fresh))
    = [m]
    /\ Chat.content m = "hello there"
    /\ fst (handleSubmit Typing.props st) = initialState.
Proof.
  intros st.
  destruct (submitted_content_is_stored_verbatim
              Typing.props st initialState "hello there" None
              Session.env Session.fresh 10 Session.fresh
              eq_refl eq_refl eq_refl)
    as (_ & _ & _ & _ & m & Hm & _ & Hcontent).
  exists m. split; [exact Hm|]. split; [exact Hcontent | reflexivity].
Defined.

(** *** Words *)

Lemma split_not_nil (s : string) : split " " s <> [].
Proof.
  destruct s as [|c s]; simpl; [discriminate|].
  destruct (Ascii.eqb c " "); [discriminate|].
  destruct (split " " s); discriminate.
Qed.

(** Splitting at the spaces and joining with spaces gives the text back. *)
Lemma join_split (s : string) : join " " (split " " s) = s.
Proof.
  induction s as [|c s IH]; [reflexivity|].
  simpl split. destruct (Ascii.eqb_spec c " ") as [->|Hc].
  - pose proof (split_not_nil s) as Hne.
    destruct (split " " s) as [|w ws]; [now contradiction Hne|].
    change (join " " (EmptyString :: w :: ws))
      with (String " " (join " " (w :: ws))).
    now rewrite IH.
  - pose proof (split_not_nil s) as Hne.
    destruct (split " " s) as [|w ws]; [now contradiction Hne|].
    destruct ws as [|w' ws]; simpl in *; now rewrite IH.
Qed.

Lemma spaceless_inv (c : ascii) (w : string) :
  spaceless (String c w) -> c <> " "%char /\ spaceless w.
Proof.
  intros H. split.
  - intros ->. now apply (H "" w).
  - intros pre post ->. now apply (H (String c pre) post).
Qed.

Lemma split_spaceless (w : string) : spaceless w -> split " " w = [w].
Proof.
  induction w as [|c w IH]; intros H; [reflexivity|].
  apply spaceless_inv in H as [Hc Hw]. simpl.
  destruct (Ascii.eqb_spec c " "); [contradiction|].
  now rewrite IH.
Qed.

Lemma split_snoc (p w : string) :
  spaceless w ->
  split " " (p ++ String " " w) = split " " p ++ [w].
Proof.
  intros Hw. induction p as [|c p IH]; simpl.
  - now rewrite split_spaceless.
  - destruct (Ascii.eqb c " "); [now rewrite IH|].
    rewrite IH. pose proof (split_not_nil p) as Hne.
    now destruct (split " " p).
Qed.

Lemma string_app_assoc (a b c : string) :
  ((a ++ b) ++ c = a ++ b ++ c)%string.
Proof. induction a as [|x a IH]; simpl; [reflexivity | now rewrite IH]. Qed.

Lemma setLast_snoc (ws : list string) (w v : string) :
  setLast (ws ++ [w]) v = ws ++ [v].
Proof.
  induction ws as [|u ws IH]; [reflexivity|].
  simpl. rewrite IH. now destruct ws.
Qed.

Lemma join_snoc (ws : list string) (v : string) :
  ws <> [] -> join " " (ws ++ [v]) = (join " " ws ++ String " " v)%string.
Proof.
  induction ws as [|u ws IH]; intros Hne; [now contradiction Hne|].
  destruct ws as [|u' ws]; [reflexivity|].
  change (join " " ((u :: u' :: ws) ++ [v]))
    with (u ++ " " ++ join " " ((u' :: ws) ++ [v]))%string.
  rewrite IH by discriminate.
  change (join " " (u :: u' :: ws)) with (u ++ " " ++ join " " (u' :: ws))%string.
  now rewrite !string_app_assoc.
Qed.

Lemma toLowerCase_app (a b : string) :
  toLowerCase (a ++ b) = (toLowerCase a ++ toLowerCase b)%string.
Proof. induction a as [|c a IH]; simpl; [reflexivity | now rewrite IH]. Qed.

Lemma last_snoc {A : Type} (l : list A) (x d : A) : last (l ++ [x]) d = x.
Proof.
  induction l as [|y l IH]; [reflexivity|].
  simpl. rewrite IH. now destruct (l ++ [x]) eqn:E; [destruct l; discriminate|].
Qed.

(** The render after an event changes neither the field nor the
    attachments. *)
Lemma afterRender_keeps_field (before st : State) :
  message (afterRender before st) = message st
  /\ attachedFiles (afterRender before st) = attachedFiles st.
Proof.
  unfold afterRender, autoCompleteEffect.
  destruct (String.eqb (message before) (message st)); [now split|].
  now destruct (0 <? String.length _)%nat.
Qed.

(** Accepting a suggestion replaces the last word of the field, and only
    that: what stands before the last space stays, the word after it
    gives way to the suggestion's text, and a space is added.  The list
    of suggestions is closed, and the render that follows keeps it
    closed. *)
Theorem completion_replaces_the_last_word (s : Suggestion) (st : State) (w : string) :
  spaceless w ->
  (message st = w ->
   message (completeWith s st) = (text s ++ " ")%string)
  /\ (forall p, message st = (p ++ String " " w)%string ->
                message (completeWith s st)
                = (p ++ String " " (text s) ++ " ")%string)
  /\ showSuggestions (afterRender st (completeWith s st)) = false
  /\ message (afterRender st (completeWith s st)) = message (completeWith s st)
  /\ attachedFiles (completeWith s st) = attachedFiles st.
Proof.
  intros Hw.
  split; [|split; [|split; [|split]]].
  - intros Hm. unfold completeWith. simpl. now rewrite Hm, split_spaceless.
  - intros p Hm. unfold completeWith. simpl.
    rewrite Hm, split_snoc, setLast_snoc, join_snoc, join_split
      by (assumption || apply split_not_nil).
    now rewrite string_app_assoc.
  - unfold afterRender.
    destruct (String.eqb (message st) (message (completeWith s st)));
      [reflexivity|].
    unfold autoCompleteEffect, completeWith. simpl.
    rewrite toLowerCase_app.
    change (toLowerCase " ") with (String " " "").
    rewrite split_snoc by (intros pre post H; now destruct pre).
    now rewrite last_snoc.
  - apply afterRender_keeps_field.
  - reflexivity.
Qed.

Lemma completion_replaces_the_last_word_witness :
  let st := afterRender initialState
              (handleInputChange "please sum" initialState) in
  message (fst (handleKeyDown Typing.props Tab st))
  = "please Summarize the main points from ".
Proof.
  intros st.
  destruct (completion_replaces_the_last_word
              {| text := "Summarize the main points from"; stype := command |}
              st "sum"
              ltac:(intros [|a [|b [|c [|d pre]]]] post H; discriminate))
    as (_ & H & _).
  exact (H "please" eq_refl).
Defined.

(** *** The list of suggestions *)

(** While the list of suggestions is open on a highlighted entry,
    ArrowDown moves the highlight to the next entry, and from the last
    entry to the first; ArrowUp moves it to the previous entry, and from
    the first entry to the last; each key changes nothing else in the
    store and submits nothing, the highlight stays inside the list, and
    down and then up, or up and then down, gives the store back. *)
Theorem arrow_keys_cycle_through_suggestions props st :
  showSuggestions st = true ->
  (0 <= selectedSuggestion st
   < Z.of_nat (List.length (filteredSuggestions st)))%Z ->
  let down := handleKeyDown props ArrowDown st in
  let up := handleKeyDown props ArrowUp st in
  let last := (Z.of_nat (List.length (filteredSuggestions st)) - 1)%Z in
  (0 <= selectedSuggestion (fst down)
   < Z.of_nat (List.length (filteredSuggestions st)))%Z
  /\ (0 <= selectedSuggestion (fst up)
      < Z.of_nat (List.length (filteredSuggestions st)))%Z
  /\ fst (handleKeyDown props ArrowUp (fst down)) = st
  /\ fst (handleKeyDown props ArrowDown (fst up)) = st
  /\ (snd down, snd up) = (None, None)
  /\ (message (fst down), message (fst up)) = (message st, message st)
  /\ selectedSuggestion (fst down)
     = (if (selectedSuggestion st =? last)%Z then 0
        else selectedSuggestion st + 1)%Z
  /\ selectedSuggestion (fst up)
     = (if (selectedSuggestion st =? 0)%Z then last
        else selectedSuggestion st - 1)%Z
  /\ fst down
     = setSelectedSuggestion (fun _ => selectedSuggestion (fst down)) st
  /\ fst up
     = setSelectedSuggestion (fun _ => selectedSuggestion (fst up)) st
  /\ ((1 < List.length (filteredSuggestions st))%nat ->
      fst down <> st /\ fst up <> st).
Proof.
  intros Hopen Hrange. destruct st as [m files open sel sugg].
  simpl in *. subst open. unfold handleKeyDown. simpl.
  unfold setSelectedSuggestion. simpl.
  repeat match goal with
         | |- context [(?a <? ?b)%Z] => destruct (Z.ltb_spec a b)
         | |- context [(?a =? ?b)%Z] => destruct (Z.eqb_spec a b)
         end;
    repeat split; try lia; try (f_equal; lia);
    unfold not; intros;
    match goal with
    | Heq : @eq State _ _ |- _ => injection Heq; lia
    end.
Qed.

Lemma arrow_keys_cycle_through_suggestions_witness :
  let st := afterRender initialState (handleInputChange "the" initialState) in
  selectedSuggestion (fst (handleKeyDown Typing.props ArrowUp st)) = 3%Z
  /\ fst (handleKeyDown Typing.props ArrowDown
            (fst (handleKeyDown Typing.props ArrowUp st))) = st.
Proof.
  intros st.
  destruct (arrow_keys_cycle_through_suggestions Typing.props st eq_refl
              ltac:(vm_compute; split; [discriminate | reflexivity]))
    as (_ & _ & _ & Hback & _).
  split; [reflexivity | exact Hback].
Defined.

(** When the auto-complete effect opens the list, the word being typed is
    not empty, the first entry is highlighted and exists, and every entry
    of the list is one of the common suggestions whose text contains that
    word, case ignored. *)
Theorem open_suggestions_match_the_current_word st :
  showSuggestions (autoCompleteEffect st) = true ->
  let currentWord := last (split " " (toLowerCase (message st))) "" in
  currentWord <> ""
  /\ selectedSuggestion (autoCompleteEffect st) = 0%Z
  /\ (exists s, selected (autoCompleteEffect st) = Some s)
  /\ Forall (fun s => In s COMMON_SUGGESTIONS
                      /\ includes (toLowerCase (text s)) currentWord = true)
       (filteredSuggestions (autoCompleteEffect st)).
Proof.
  intros Hopen currentWord. unfold selected, autoCompleteEffect in *.
  fold currentWord in Hopen |- *.
  destruct (0 <? String.length currentWord)%nat eqn:Hword;
    cbn [showSuggestions selectedSuggestion filteredSuggestions] in *;
    [|discriminate].
  set (filtered := filter _ COMMON_SUGGESTIONS) in *.
  split; [intros E; now rewrite E in Hword|]. split; [reflexivity|]. split.
  - destruct filtered as [|s l]; [discriminate|]. now exists s.
  - apply Forall_forall. intros s Hs. subst filtered.
    now apply filter_In in Hs.
Qed.

Lemma open_suggestions_match_the_current_word_witness :
  let st := handleInputChange "Please COMP" initialState in
  map text (filteredSuggestions (autoCompleteEffect st))
  = ["Compare the information between"]
  /\ Forall (fun s => In s COMMON_SUGGESTIONS
                      /\ includes (toLowerCase (text s)) "comp" = true)
       (filteredSuggestions (autoCompleteEffect st)).
Proof.
  intros st.
  destruct (open_suggestions_match_the_current_word st eq_refl)
    as (_ & _ & _ & Hall).
  split; [reflexivity | exact Hall].
Defined.

(** *** Attachments *)

Lemma isValidFile_spec (file : File) :
  isValidFile file = true <-> validFile file.
Proof.
  unfold isValidFile, fileAlert, validFile.
  destruct (Z.ltb_spec maxFileSize (size file)) as [Hbig|Hok].
  - split; [discriminate | intros [H _]; lia].
  - assert (Hin : isAllowedType (mime file) = true <-> In (mime file) allowedTypes).
    { unfold isAllowedType. rewrite existsb_exists. split.
      - intros (t & Ht & Heq). apply String.eqb_eq in Heq. now subst.
      - intros H. exists (mime file). split; [exact H | apply String.eqb_refl]. }
    destruct (isAllowedType (mime file)); simpl.
    + split; [intros _; split; [exact Hok | now apply Hin] | reflexivity].
    + split; [discriminate | intros [_ H]; now apply Hin in H].
Qed.

Lemma alerts_count (files : list File) :
  (List.length
     (flat_map (fun file => match fileAlert file with
                            | Some a => [a]
                            | None => []
                            end) files)
   + List.length (filter isValidFile files))%nat
  = List.length files.
Proof.
  induction files as [|f files IH]; [reflexivity|].
  simpl. unfold isValidFile at 1.
  destruct (fileAlert f); simpl; lia.
Qed.

Section Pieces.
Context {A : Type} (P : A -> Prop).

Lemma Forall_take (n : nat) (l : list A) : Forall P l -> Forall P (firstn n l).
Proof.
  intros H. rewrite <- (firstn_skipn n l) in H.
  now apply Forall_app in H.
Qed.

Lemma Forall_drop (n : nat) (l : list A) : Forall P l -> Forall P (skipn n l).
Proof.
  intros H. rewrite <- (firstn_skipn n l) in H.
  now apply Forall_app in H.
Qed.

End Pieces.

Lemma handleFileSelect_attached files st :
  attachmentsOk st ->
  attachedFiles (fst (handleFileSelect files st))
  = attachedFiles st
    ++ firstn (5 - List.length (attachedFiles st)) (filter isValidFile files)
  /\ attachmentsOk (fst (handleFileSelect files st)).
Proof.
  intros [Hlen Hvalid]. unfold attachmentsOk, handleFileSelect, setAttachedFiles.
  cbn [fst attachedFiles].
  assert (Heq : firstn 5 (attachedFiles st ++ filter isValidFile files)
                = attachedFiles st
                  ++ firstn (5 - List.length (attachedFiles st))
                            (filter isValidFile files)).
  { rewrite firstn_app. f_equal. now apply firstn_all2. }
  split; [exact Heq|]. split; [apply firstn_le_length|].
  rewrite Heq. apply Forall_app. split; [exact Hvalid|].
  apply Forall_take, Forall_forall. intros f Hf.
  apply filter_In in Hf as [_ Hf]. now apply isValidFile_spec.
Qed.

(** Selecting files keeps what is attached, in place, and attaches after
    it the selected files that are at most 10 MB large and of an allowed
    type, in their order, as far as five attachments go; every other
    selected file raises exactly one alert. *)
Theorem file_select_keeps_at_most_five_valid_files files st :
  attachmentsOk st ->
  let st' := fst (handleFileSelect files st) in
  let alerts := snd (handleFileSelect files st) in
  attachedFiles st'
  = attachedFiles st
    ++ firstn (5 - List.length (attachedFiles st)) (filter isValidFile files)
  /\ attachmentsOk st'
  /\ (forall f, In f (filter isValidFile files) <-> In f files /\ validFile f)
  /\ (List.length alerts + List.length (filter isValidFile files))%nat
     = List.length files
  /\ message st' = message st.
Proof.
  intros Hok.
  destruct (handleFileSelect_attached files st Hok) as [Heq Hok'].
  split; [exact Heq|]. split; [exact Hok'|].
  split; [intros f; now rewrite filter_In, isValidFile_spec|].
  split; [apply alerts_count | reflexivity].
Qed.

Lemma file_select_keeps_at_most_five_valid_files_witness :
  attachedFiles
    (fst (handleFileSelect [Files.scan; Files.notes; Files.photo; Files.thesis]
            Files.fourAttached))
  = [Files.notes; Files.thesis; Files.notes; Files.thesis; Files.notes]
  /\ snd (handleFileSelect [Files.scan; Files.notes; Files.photo; Files.thesis]
            Files.fourAttached)
     = [ "File scan.pdf is too large (max 10MB)";
         "File type image/png is not supported" ].
Proof.
  assert (Hok : attachmentsOk Files.fourAttached).
  { split; [simpl; lia|]. simpl.
    repeat (apply Forall_cons;
            [split; [vm_compute; discriminate | simpl; tauto]|]).
    apply Forall_nil. }
  destruct (file_select_keeps_at_most_five_valid_files
              [Files.scan; Files.notes; Files.photo; Files.thesis]
              Files.fourAttached Hok)
    as (Hattached & _).
  split; [rewrite Hattached|]; reflexivity.
Defined.

Lemma dropIndex_spec {A : Type} (index : nat) (l : list A) : forall i,
  dropIndex index i l
  = if (index <? i)%nat then l
    else firstn (index - i) l ++ skipn (S (index - i)) l.
Proof.
  induction l as [|x l IH]; intros i; simpl.
  - destruct (index <? i)%nat; [reflexivity|]. now destruct (index - i)%nat.
  - rewrite IH.
    destruct (Nat.eqb_spec i index) as [->|Hne].
    + rewrite Nat.ltb_irrefl, Nat.sub_diag.
      replace (index <? S index)%nat with true
        by (symmetry; apply Nat.ltb_lt; lia).
      reflexivity.
    + destruct (Nat.ltb_spec index i) as [Hlt|Hge].
      * replace (index <? S i)%nat with true
          by (symmetry; apply Nat.ltb_lt; lia).
        reflexivity.
      * replace (index <? S i)%nat with false
          by (symmetry; apply Nat.ltb_ge; lia).
        replace (index - i)%nat with (S (index - S i)) by lia.
        reflexivity.
Qed.

Lemma removeFile_attached (index : nat) (st : State) :
  attachedFiles (removeFile index st)
  = firstn index (attachedFiles st) ++ skipn (S index) (attachedFiles st).
Proof.
  unfold removeFile, setAttachedFiles. cbn [attachedFiles].
  rewrite dropIndex_spec. cbn [Nat.ltb Nat.leb]. now rewrite Nat.sub_0_r.
Qed.

Lemma removeFile_keeps_ok (index : nat) (st : State) :
  attachmentsOk st -> attachmentsOk (removeFile index st).
Proof.
  intros [Hlen Hvalid]. unfold attachmentsOk. rewrite removeFile_attached.
  split.
  - rewrite length_app, length_firstn, length_skipn. lia.
  - apply Forall_app. split; [now apply Forall_take | now apply Forall_drop].
Qed.

(** Removing the attachment at an index takes out that one and keeps the
    others in order; an index beyond the last attachment removes
    nothing. *)
Theorem removeFile_takes_out_one_attachment (index : nat) (st : State) :
  attachedFiles (removeFile index st)
  = firstn index (attachedFiles st) ++ skipn (S index) (attachedFiles st)
  /\ List.length (attachedFiles (removeFile index st))
     = (if (index <? List.length (attachedFiles st))%nat
        then List.length (attachedFiles st) - 1
        else List.length (attachedFiles st))%nat
  /\ ((List.length (attachedFiles st) <= index)%nat ->
      attachedFiles (removeFile index st) = attachedFiles st)
  /\ message (removeFile index st) = message st.
Proof.
  rewrite removeFile_attached.
  split; [reflexivity|]. split; [|split; [|reflexivity]].
  - rewrite length_app, length_firstn, length_skipn.
    destruct (Nat.ltb_spec index (List.length (attachedFiles st))); lia.
  - intros Hout. rewrite firstn_all2, skipn_all2 by lia. apply app_nil_r.
Qed.

Lemma removeFile_takes_out_one_attachment_witness :
  attachedFiles (removeFile 1 Files.fourAttached)
  = [Files.notes; Files.notes; Files.thesis]
  /\ attachedFiles (removeFile 4 Files.fourAttached)
     = attachedFiles Files.fourAttached.
Proof.
  destruct (removeFile_takes_out_one_attachment 1 Files.fourAttached)
    as (Hone & _).
  destruct (removeFile_takes_out_one_attachment 4 Files.fourAttached)
    as (_ & _ & Hout & _).
  split; [rewrite Hone; reflexivity|].
  apply Hout. simpl. lia.
Defined.

(** *** Every sequence of events *)

Lemma handleKeyDown_submits_or_keeps props key st :
  handleKeyDown props key st = handleSubmit props st
  \/ (snd (handleKeyDown props key st) = None
      /\ attachedFiles (fst (handleKeyDown props key st)) = attachedFiles st).
Proof.
  unfold handleKeyDown.
  destruct (showSuggestions st).
  - right. destruct key as [| | | |[|]|[|]|]; try (now split).
    + destruct (selected st); now split.
    + destruct (selected st); now split.
  - destruct key as [| | | |[|]|[|]|]; try (right; now split). now left.
Qed.

Lemma handleSubmit_keeps_ok props st :
  attachmentsOk st ->
  attachmentsOk (fst (handleSubmit props st))
  /\ match snd (handleSubmit props st) with
     | None => True
     | Some call => wellFormedCall call
     end.
Proof.
  intros Hok. unfold handleSubmit.
  destruct (truthy (trim (message st))) eqn:Hc; simpl; [|now split].
  destruct (negb (isLoading props) && negb (disabled props)); simpl;
    [|now split].
  split; [split; [simpl; lia | constructor]|].
  unfold wellFormedCall. simpl.
  split; [now destruct (trim (message st))|].
  split; [apply trim_idempotent|].
  destruct Hok as [Hlen Hvalid].
  destruct (attachedFiles st) as [|f fs]; simpl; [exact I|].
  split; [discriminate|]. split; [exact Hlen | exact Hvalid].
Qed.

Lemma step_keeps_ok props ev st :
  attachmentsOk st ->
  attachmentsOk (fst (step props ev st))
  /\ match snd (step props ev st) with
     | None => True
     | Some call => wellFormedCall call
     end.
Proof.
  intros Hok.
  assert (Hrender : forall st' call,
             attachmentsOk st' ->
             attachmentsOk (fst (afterRender st st', call : option SendCall)))
    by (intros st' call H; unfold attachmentsOk; cbn [fst];
        now rewrite (proj2 (afterRender_keeps_field st st'))).
  unfold step. destruct ev as [v | key | | s | files | index].
  - split; [now apply Hrender | exact I].
  - destruct (handleKeyDown_submits_or_keeps props key st) as [-> | [Hnone Hkeep]].
    + destruct (handleSubmit_keeps_ok props st Hok) as [H1 H2].
      destruct (handleSubmit props st) as [st' call].
      split; [now apply Hrender | exact H2].
    + destruct (handleKeyDown props key st) as [st' call].
      cbn [fst snd] in Hnone, Hkeep.
      subst call. split; [|exact I].
      apply Hrender. unfold attachmentsOk. now rewrite Hkeep.
  - destruct (handleSubmit_keeps_ok props st Hok) as [H1 H2].
    destruct (handleSubmit props st) as [st' call].
    split; [now apply Hrender | exact H2].
  - split; [now apply Hrender | exact I].
  - split; [|exact I]. apply Hrender.
    now apply handleFileSelect_attached.
  - split; [|exact I]. apply Hrender. now apply removeFile_keeps_ok.
Qed.

(** Whatever the user does at the message box, starting from its mount
    state: never more than five files are attached, each at most 10 MB
    large and of an allowed type; and every call of [onSendMessage]
    carries a text that is not empty and is trimmed, and either no file
    list or a non-empty list of at most five such files. *)
Theorem every_call_carries_trimmed_text_and_valid_files
    (events : list (Props * Event)) :
  attachmentsOk (fst (run events initialState))
  /\ Forall wellFormedCall (snd (run events initialState)).
Proof.
  assert (Hgen : forall st,
             attachmentsOk st ->
             attachmentsOk (fst (run events st))
             /\ Forall wellFormedCall (snd (run events st))).
  { induction events as [|[props ev] rest IH]; intros st Hok.
    - simpl. now split.
    - simpl run.
      destruct (step_keeps_ok props ev st Hok) as [Hok' Hcall].
      destruct (step props ev st) as [st' call]. simpl in Hok', Hcall.
      destruct (IH st' Hok') as [Hfinal Hcalls].
      destruct (run rest st') as [st'' calls]. simpl in *.
      split; [exact Hfinal|].
      destruct call; [now constructor | exact Hcalls]. }
  apply Hgen. split; [simpl; lia | constructor].
Qed.

(** The afternoon of [Files.afternoon]: two submissions go out, the
    first with the one file that is still attached, and the attempt made
    while the interface is loading is not among them. *)
Lemma afternoon_calls :
  snd (run Files.afternoon initialState)
  = [ ("about chapter one", Some [Files.thesis]); ("and two", None) ]
  /\ fst (run Files.afternoon initialState) = initialState.
Proof. split; reflexivity. Qed.

End ChatInputMore.
